(** * RobustTicketing: the ticket purchase transaction

    A shallow embedding of [POST /api/tickets/purchase]
    (src/routes/tickets.js) over a relational store with the tables the
    handler's SQL names, together with the helpers [generateTicketCode]
    and [calculateOrderTotal], and the properties of the purchase flow.

    Conventions of the embedding:
    - a table is the list of its rows, in insertion order;
    - a timestamp is the number of milliseconds [Date.prototype.getTime]
      returns, so [new Date(a) <= new Date(b)] is [a <=? b];
    - a requested quantity is an integer; prices live in an arbitrary
      number type with the two operations the handler uses ([+=] and
      [price * quantity]) and the rounding of the column that stores an
      order's total, so nothing depends on how JavaScript or the store
      round; two instances are given, integer cents and binary64 with a
      column of two decimals;
    - ids are compared as text, as the TEXT columns of the SQLite tables
      and the handler's [===] do;
    - [uuidv4()], [Math.random()] and the store's ability to reject a
      statement are oracles of the environment [Env]; [db.getClient()],
      [logActivity] and [logError] are collaborators that do not touch
      the store or the response. *)

From Stdlib Require Import String Ascii List ZArith Bool Arith Lia Permutation.
From Stdlib Require Floats Uint63.
Import ListNotations.
Local Open Scope string_scope.
Local Open Scope list_scope.
Local Open Scope Z_scope.

Set Implicit Arguments.

(** ** Numbers used for money *)

Class Number (num : Type) := {
  num_zero : num;                   (* [let totalAmount = 0] *)
  num_add : num -> num -> num;      (* [total += x] *)
  num_times : num -> Z -> num;      (* [type.price * quantity] *)
  num_column : num -> num           (* the number a money column holds once
                                       the value is bound to it: [DECIMAL(10, 2)]
                                       in PostgreSQL, [REAL] in SQLite *)
}.

#[export] Instance Number_Z : Number Z := {
  num_zero := 0;
  num_add := Z.add;
  num_times := Z.mul;
  num_column := fun cents => cents
}.

(** JavaScript numbers against the PostgreSQL tables: binary64 sums and
    products, and a money column that keeps two decimals (the value
    rounded to the nearest hundredth, for amounts below 2^51 / 100). *)
Definition float_of_Z (z : Z) : PrimFloat.float :=
  match z with
  | Z0 => PrimFloat.of_uint63 (Uint63.of_Z 0)
  | Zpos _ => PrimFloat.of_uint63 (Uint63.of_Z z)
  | Zneg p => PrimFloat.opp (PrimFloat.of_uint63 (Uint63.of_Z (Zpos p)))
  end.

Definition two_decimals (x : PrimFloat.float) : PrimFloat.float :=
  let hundred := float_of_Z 100 in
  let two52 := float_of_Z 4503599627370496 in
  PrimFloat.div
    (PrimFloat.sub (PrimFloat.add (PrimFloat.mul x hundred) two52) two52)
    hundred.

#[export] Instance Number_binary64 : Number PrimFloat.float := {
  num_zero := float_of_Z 0;
  num_add := PrimFloat.add;
  num_times := fun price q => PrimFloat.mul price (float_of_Z q);
  num_column := two_decimals
}.

Definition Timestamp := Z.

(** ** Rows of the four tables, with the columns the handler reads and writes *)

Record Event := {
  ev_id : string;
  ev_deleted_at : option Timestamp;
  ev_status : string;
  ev_start_date : Timestamp
}.

Record TicketType (num : Type) := {
  tt_id : string;
  tt_event_id : string;
  tt_name : string;
  tt_price : num;
  tt_quantity : Z;
  tt_max_per_order : Z;
  tt_sale_start_date : option Timestamp;
  tt_sale_end_date : option Timestamp;
  tt_is_active : bool;
  tt_deleted_at : option Timestamp
}.

(** [t_purchase_price] is the column [purchase_price ... NOT NULL] of
    [CREATE TABLE tickets] (src/config/database.js); it is [None] (SQL
    NULL) in a row whose INSERT does not list it. *)
Record Ticket (num : Type) := {
  t_id : string;
  t_code : string;
  t_order_id : string;
  t_ticket_type_id : string;
  t_status : string;
  t_customer_first_name : string;
  t_customer_last_name : string;
  t_customer_email : string;
  t_customer_phone : option string;
  t_purchase_price : option num
}.

Record Order (num : Type) := {
  o_id : string;
  o_user_id : string;
  o_event_id : string;
  o_total_amount : num;
  o_status : string;
  o_customer_first_name : string;
  o_customer_last_name : string;
  o_customer_email : string;
  o_customer_phone : option string
}.

Record Store (num : Type) := {
  events : list Event;
  ticket_types : list (TicketType num);
  tickets : list (Ticket num);
  orders : list (Order num)
}.

(** The statuses the schema's CHECK constraint on [tickets.status] allows. *)
Definition ticket_statuses : list string :=
  ["active"; "used"; "refunded"; "transferred"].

(** ** Request and response of the purchase endpoint *)

Record CustomerInfo := {
  firstName : string;
  lastName : string;
  email : string;
  phone : option string
}.

Record TicketOrder := {
  ticketTypeId : string;
  quantity : Z
}.

Record PurchaseBody := {
  eventId : string;
  ticketOrders : list TicketOrder;      (* [req.body.tickets] *)
  customerInfo : CustomerInfo
}.

(** The errors thrown inside the handler's [try] block, with the data
    their messages interpolate. *)
Inductive PurchaseError :=
| EventNotAvailable          (* 'Event not found or not available for purchase' *)
| EventAlreadyStarted        (* 'Cannot purchase tickets for events that have already started' *)
| TicketTypesNotFound        (* 'One or more ticket types not found' *)
| NotActive (name : string)                       (* 'Ticket type "name" is not active' *)
| SalesNotStarted (name : string)                 (* 'Sales for "name" have not started yet' *)
| SalesEnded (name : string)                      (* 'Sales for "name" have ended' *)
| MaximumPerOrder (max : Z) (name : string)       (* 'Maximum max tickets allowed per order for "name"' *)
| OnlyAvailable (availableCount : Z) (name : string) (* 'Only n tickets available for "name"' *)
| UndefinedTicketType        (* TypeError: [find] gave [undefined] *)
| StoreFailure (statement : nat).  (* [client.query] rejected *)

Record TicketTypeView (num : Type) := {
  ttv_name : string;
  ttv_price : num
}.

Record TicketView (num : Type) := {
  tv_id : string;
  tv_code : string;
  tv_ticketType : TicketTypeView num
}.

Record OrderView (num : Type) := {
  ov_id : string;
  ov_totalAmount : num;
  ov_status : string;
  ov_ticketCount : nat
}.

Inductive Response (num : Type) :=
| Created (order : OrderView num) (tks : list (TicketView num))   (* 201 *)
| BadRequest (error : PurchaseError).                             (* 400 *)

Arguments BadRequest {num} error.

(** ** The store: statements, transactions, and what a client sees *)

Inductive Write (num : Type) :=
| InsertOrder (o : Order num)
| InsertTicket (t : Ticket num)
| UpdateOrderStatus (status : string) (id : string).

Arguments UpdateOrderStatus {num} status id.

Section Model.

Context {num : Type} `{Number num}.

Definition set_order_status (status : string) (o : Order num) : Order num :=
  {| o_id := o_id o; o_user_id := o_user_id o; o_event_id := o_event_id o;
     o_total_amount := o_total_amount o; o_status := status;
     o_customer_first_name := o_customer_first_name o;
     o_customer_last_name := o_customer_last_name o;
     o_customer_email := o_customer_email o;
     o_customer_phone := o_customer_phone o |}.

(** The row an INSERT INTO orders leaves in the table: [total_amount] is
    a money column. *)
Definition stored_order (o : Order num) : Order num :=
  {| o_id := o_id o; o_user_id := o_user_id o; o_event_id := o_event_id o;
     o_total_amount := num_column (o_total_amount o); o_status := o_status o;
     o_customer_first_name := o_customer_first_name o;
     o_customer_last_name := o_customer_last_name o;
     o_customer_email := o_customer_email o;
     o_customer_phone := o_customer_phone o |}.

Definition apply_write (db : Store num) (w : Write num) : Store num :=
  match w with
  | InsertOrder o =>
      {| events := events db; ticket_types := ticket_types db;
         tickets := tickets db; orders := orders db ++ [stored_order o] |}
  | InsertTicket t =>
      {| events := events db; ticket_types := ticket_types db;
         tickets := tickets db ++ [t]; orders := orders db |}
  | UpdateOrderStatus status id =>
      {| events := events db; ticket_types := ticket_types db;
         tickets := tickets db;
         orders := map (fun o => if String.eqb (o_id o) id
                                 then set_order_status status o else o)
                       (orders db) |}
  end.

Definition apply_writes (db : Store num) (ws : list (Write num)) : Store num :=
  fold_left apply_write ws db.

(** The oracles of one request. [random_index k] is the value of the
    k-th [Math.floor(Math.random() * chars.length)]; [fault k] tells
    whether the store rejects the k-th statement of the [try] block (a
    constraint violation, a lost connection, a failed commit). *)
Record Env := {
  now : Timestamp;
  uuidv4 : nat -> string;
  random_index : nat -> nat;
  fault : nat -> bool
}.

(** A pooled client: the committed store it is connected to, the writes
    of its open transaction (invisible to others until COMMIT), and how
    many statements, uuids and random numbers it has drawn. *)
Record Session := {
  committed : Store num;
  tx_log : option (list (Write num));
  statements : nat;
  uuids : nat;
  randoms : nat
}.

Definition getClient (db : Store num) : Session :=
  {| committed := db; tx_log := None; statements := 0%nat;
     uuids := 0%nat; randoms := 0%nat |}.

(** What the client's own statements read: committed rows and its own
    pending writes. *)
Definition visible (s : Session) : Store num :=
  match tx_log s with
  | Some ws => apply_writes (committed s) ws
  | None => committed s
  end.

Inductive Result (A : Type) :=
| Ok (a : A)
| Throw (e : PurchaseError).

Arguments Throw {A} e.

Definition M (A : Type) := Session -> Result A * Session.

Definition ret {A} (a : A) : M A := fun s => (Ok a, s).

Definition throw {A} (e : PurchaseError) : M A := fun s => (Throw e, s).

Definition bind {A B} (m : M A) (f : A -> M B) : M B :=
  fun s => match m s with
           | (Ok a, s') => f a s'
           | (Throw e, s') => (Throw e, s')
           end.

Definition lift {A} (r : Result A) : M A := fun s => (r, s).

Notation "x <- m ;; f" := (bind m (fun x => f))
  (at level 61, m at next level, right associativity).

Definition with_tx_log (l : option (list (Write num))) (s : Session) : Session :=
  {| committed := committed s; tx_log := l; statements := statements s;
     uuids := uuids s; randoms := randoms s |}.

Definition with_committed (db : Store num) (s : Session) : Session :=
  {| committed := db; tx_log := tx_log s; statements := statements s;
     uuids := uuids s; randoms := randoms s |}.

Definition next_statement (s : Session) : Session :=
  {| committed := committed s; tx_log := tx_log s;
     statements := S (statements s); uuids := uuids s; randoms := randoms s |}.

(** [await client.query(...)] inside the [try] block: the statement is
    numbered, and either the store rejects it or it runs. *)
Definition client_query {A} (env : Env) (run : Session -> A * Session) : M A :=
  fun s =>
    let k := statements s in
    let s1 := next_statement s in
    if fault env k then (Throw (StoreFailure k), s1)
    else let (a, s2) := run s1 in (Ok a, s2).

Definition run_begin (s : Session) : unit * Session :=
  (tt, match tx_log s with
       | Some _ => s                      (* already in a transaction *)
       | None => with_tx_log (Some []) s
       end).

Definition run_commit (s : Session) : unit * Session :=
  (tt, with_tx_log None (with_committed (visible s) s)).

Definition run_write (w : Write num) (s : Session) : unit * Session :=
  (tt, match tx_log s with
       | Some ws => with_tx_log (Some (ws ++ [w])) s
       | None => with_committed (apply_write (committed s) w) s   (* autocommit *)
       end).

(** [await client.query('ROLLBACK')] in the [catch] block. *)
Definition rollback (s : Session) : Session := with_tx_log None s.

Definition is_null {A} (x : option A) : bool :=
  match x with None => true | Some _ => false end.

(** [SELECT * FROM events
     WHERE id = $1 AND deleted_at IS NULL AND status = 'published'] *)
Definition eventQuery (eventId : string) (db : Store num) : list Event :=
  filter (fun e => String.eqb (ev_id e) eventId
                   && is_null (ev_deleted_at e)
                   && String.eqb (ev_status e) "published")
         (events db).

(** A row of [ticketTypesQuery]: [tt.*] and [COUNT(t.id) as sold_count]. *)
Record TicketTypeRow := {
  row_type :> TicketType num;
  sold_count : nat
}.

(** The join condition [tt.id = t.ticket_type_id AND t.status != 'cancelled']. *)
Definition counts_as_sold (id : string) (t : Ticket num) : bool :=
  String.eqb id (t_ticket_type_id t) && negb (String.eqb (t_status t) "cancelled").

Definition count_sold (db : Store num) (id : string) : nat :=
  length (filter (counts_as_sold id) (tickets db)).

(** [SELECT tt.*, COUNT(t.id) as sold_count
     FROM ticket_types tt
     LEFT JOIN tickets t ON tt.id = t.ticket_type_id AND t.status != 'cancelled'
     WHERE tt.id = ANY($1) AND tt.event_id = $2 AND tt.deleted_at IS NULL
     GROUP BY tt.id]
    One row per ticket type: [id] is the primary key of [ticket_types]. *)
Definition ticketTypesQuery (ticketTypeIds : list string) (eventId : string)
    (db : Store num) : list TicketTypeRow :=
  map (fun tt => {| row_type := tt; sold_count := count_sold db (tt_id tt) |})
      (filter (fun tt => existsb (String.eqb (tt_id tt)) ticketTypeIds
                         && String.eqb (tt_event_id tt) eventId
                         && is_null (tt_deleted_at tt))
              (ticket_types db)).

Definition query_begin (env : Env) : M unit := client_query env run_begin.

Definition query_commit (env : Env) : M unit := client_query env run_commit.

Definition query_write (env : Env) (w : Write num) : M unit :=
  client_query env (run_write w).

Definition query_events (env : Env) (eventId : string) : M (list Event) :=
  client_query env (fun s => (eventQuery eventId (visible s), s)).

Definition query_ticket_types (env : Env) (ticketTypeIds : list string)
    (eventId : string) : M (list TicketTypeRow) :=
  client_query env (fun s => (ticketTypesQuery ticketTypeIds eventId (visible s), s)).

(** ** Helper functions of the route file *)

Definition call_uuidv4 (env : Env) : M string :=
  fun s => (Ok (uuidv4 env (uuids s)),
            {| committed := committed s; tx_log := tx_log s;
               statements := statements s; uuids := S (uuids s);
               randoms := randoms s |}).

(** [Math.floor(Math.random() * chars.length)] *)
Definition call_random_index (env : Env) : M nat :=
  fun s => (Ok (random_index env (randoms s)),
            {| committed := committed s; tx_log := tx_log s;
               statements := statements s; uuids := uuids s;
               randoms := S (randoms s) |}).

Definition chars : string := "ABCDEFGHIJKLMNOPQRSTUVWXYZ0123456789".

(** [String.prototype.charAt]: the empty string out of range. *)
Definition charAt (str : string) (i : nat) : string :=
  match String.get i str with
  | Some c => String c EmptyString
  | None => EmptyString
  end.

Fixpoint generateTicketCode_loop (env : Env) (n : nat) (result : string) : M string :=
  match n with
  | O => ret result
  | S n' =>
      i <- call_random_index env ;;
      generateTicketCode_loop env n' (result ++ charAt chars i)%string
  end.

Definition generateTicketCode (env : Env) : M string :=
  generateTicketCode_loop env 10 "".

(** A JavaScript object used as a map from ticket type id to quantity. *)
Definition Quantities := list (string * Z).

Fixpoint set_quantity (id : string) (q : Z) (m : Quantities) : Quantities :=
  match m with
  | [] => [(id, q)]
  | (k, v) :: rest =>
      if String.eqb k id then (k, q) :: rest else (k, v) :: set_quantity id q rest
  end.

Fixpoint get_quantity (id : string) (m : Quantities) : option Z :=
  match m with
  | [] => None
  | (k, v) :: rest => if String.eqb k id then Some v else get_quantity id rest
  end.

(** [ticketQuantities[type.id] || 0] *)
Definition quantity_or_0 (id : string) (m : Quantities) : Z :=
  match get_quantity id m with
  | Some q => q
  | None => 0
  end.

Definition calculateOrderTotal (ticketTypes : list TicketTypeRow)
    (ticketQuantities : Quantities) : num :=
  fold_left (fun total (type : TicketTypeRow) =>
               num_add total
                 (num_times (tt_price type) (quantity_or_0 (tt_id type) ticketQuantities)))
            ticketTypes num_zero.

(** ** The purchase handler *)

(** [value && new Date(value) > now] for a nullable timestamp column. *)
Definition set_and_after (d : option Timestamp) (t : Timestamp) : bool :=
  match d with Some x => x >? t | None => false end.

Definition set_and_before (d : option Timestamp) (t : Timestamp) : bool :=
  match d with Some x => x <? t | None => false end.

Definition find_ticket_type (ticketTypes : list TicketTypeRow) (id : string)
    : option TicketTypeRow :=
  find (fun tt : TicketTypeRow => String.eqb (tt_id tt) id) ticketTypes.

(** The body of [for (const order of ticketOrders)] up to the last check. *)
Definition validate_order (env : Env) (ticketTypes : list TicketTypeRow)
    (order : TicketOrder) : Result TicketTypeRow :=
  match find_ticket_type ticketTypes (ticketTypeId order) with
  | None => Throw UndefinedTicketType
  | Some ticketType =>
      if negb (tt_is_active ticketType) then
        Throw (NotActive (tt_name ticketType))
      else if set_and_after (tt_sale_start_date ticketType) (now env) then
        Throw (SalesNotStarted (tt_name ticketType))
      else if set_and_before (tt_sale_end_date ticketType) (now env) then
        Throw (SalesEnded (tt_name ticketType))
      else if quantity order >? tt_max_per_order ticketType then
        Throw (MaximumPerOrder (tt_max_per_order ticketType) (tt_name ticketType))
      else
        let availableCount := tt_quantity ticketType - Z.of_nat (sold_count ticketType) in
        if quantity order >? availableCount then
          Throw (OnlyAvailable availableCount (tt_name ticketType))
        else Ok ticketType
  end.

Fixpoint validate_orders (env : Env) (ticketTypes : list TicketTypeRow)
    (orders : list TicketOrder) (ticketQuantities : Quantities) (totalAmount : num)
    : Result (Quantities * num) :=
  match orders with
  | [] => Ok (ticketQuantities, totalAmount)
  | order :: rest =>
      match validate_order env ticketTypes order with
      | Throw e => Throw e
      | Ok ticketType =>
          validate_orders env ticketTypes rest
            (set_quantity (tt_id ticketType) (quantity order) ticketQuantities)
            (num_add totalAmount (num_times (tt_price ticketType) (quantity order)))
      end
  end.

(** [customerInfo.phone || null]: the empty string is stored as NULL. *)
Definition or_null (value : option string) : option string :=
  match value with
  | Some EmptyString => None
  | _ => value
  end.

Definition new_order (orderId userId : string) (body : PurchaseBody)
    (totalAmount : num) : Order num :=
  {| o_id := orderId; o_user_id := userId; o_event_id := eventId body;
     o_total_amount := totalAmount; o_status := "pending";
     o_customer_first_name := firstName (customerInfo body);
     o_customer_last_name := lastName (customerInfo body);
     o_customer_email := email (customerInfo body);
     o_customer_phone := or_null (phone (customerInfo body)) |}.

Definition new_ticket (ticketId ticketCode orderId : string) (order : TicketOrder)
    (info : CustomerInfo) : Ticket num :=
  {| t_id := ticketId; t_code := ticketCode; t_order_id := orderId;
     t_ticket_type_id := ticketTypeId order; t_status := "valid";
     t_customer_first_name := firstName info;
     t_customer_last_name := lastName info;
     t_customer_email := email info;
     t_customer_phone := or_null (phone info);
     t_purchase_price := None |}.

(** An element of [createdTickets]: the returned row and the [ticketType]
    object spread next to it. *)
Definition CreatedTicket : Type := Ticket num * TicketTypeView num.

(** [for (let i = 0; i < order.quantity; i++)], with [n] iterations left. *)
Fixpoint create_order_tickets (env : Env) (orderId : string) (info : CustomerInfo)
    (order : TicketOrder) (ticketType : TicketTypeRow) (n : nat)
    (createdTickets : list CreatedTicket) : M (list CreatedTicket) :=
  match n with
  | O => ret createdTickets
  | S n' =>
      ticketId <- call_uuidv4 env ;;
      ticketCode <- generateTicketCode env ;;
      let row := new_ticket ticketId ticketCode orderId order info in
      _ <- query_write env (InsertTicket row) ;;
      create_order_tickets env orderId info order ticketType n'
        (createdTickets ++
           [(row, {| ttv_name := tt_name ticketType; ttv_price := tt_price ticketType |})])
  end.

Fixpoint create_tickets (env : Env) (orderId : string) (info : CustomerInfo)
    (ticketTypes : list TicketTypeRow) (orders : list TicketOrder)
    (createdTickets : list CreatedTicket) : M (list CreatedTicket) :=
  match orders with
  | [] => ret createdTickets
  | order :: rest =>
      match find_ticket_type ticketTypes (ticketTypeId order) with
      | None => throw UndefinedTicketType
      | Some ticketType =>
          created <- create_order_tickets env orderId info order ticketType
                       (Z.to_nat (quantity order)) createdTickets ;;
          create_tickets env orderId info ticketTypes rest created
      end
  end.

(** What the handler holds when it reaches [COMMIT]. *)
Record Draft := {
  d_orderId : string;
  d_totalAmount : num;
  d_ticketTypes : list TicketTypeRow;
  d_ticketQuantities : Quantities;
  d_createdTickets : list CreatedTicket
}.

(** The [try] block from [BEGIN] to the UPDATE of the order. *)
Definition purchase_statements (env : Env) (userId : string) (body : PurchaseBody)
    : M Draft :=
  _ <- query_begin env ;;
  eventResult <- query_events env (eventId body) ;;
  match eventResult with
  | [] => throw EventNotAvailable
  | event :: _ =>
      if ev_start_date event <=? now env then throw EventAlreadyStarted
      else
        let ticketTypeIds := map ticketTypeId (ticketOrders body) in
        ticketTypes <- query_ticket_types env ticketTypeIds (eventId body) ;;
        if negb (length ticketTypes =? length ticketTypeIds)%nat then
          throw TicketTypesNotFound
        else
          validated <- lift (validate_orders env ticketTypes (ticketOrders body)
                               [] num_zero) ;;
          let (ticketQuantities, totalAmount) := validated in
          orderId <- call_uuidv4 env ;;
          _ <- query_write env (InsertOrder (new_order orderId userId body totalAmount)) ;;
          createdTickets <- create_tickets env orderId (customerInfo body)
                              ticketTypes (ticketOrders body) [] ;;
          _ <- query_write env (UpdateOrderStatus "completed" orderId) ;;
          ret {| d_orderId := orderId; d_totalAmount := totalAmount;
                 d_ticketTypes := ticketTypes;
                 d_ticketQuantities := ticketQuantities;
                 d_createdTickets := createdTickets |}
  end.

(** The 201 response. *)
Definition created_response (d : Draft) : Response num :=
  Created
    {| ov_id := d_orderId d; ov_totalAmount := d_totalAmount d;
       ov_status := "completed";
       ov_ticketCount := length (d_createdTickets d) |}
    (map (fun ticket => {| tv_id := t_id (fst ticket); tv_code := t_code (fst ticket);
                           tv_ticketType := snd ticket |})
         (d_createdTickets d)).

(** The whole [try] block. *)
Definition purchase_try (env : Env) (userId : string) (body : PurchaseBody)
    : M (Response num) :=
  d <- purchase_statements env userId body ;;
  _ <- query_commit env ;;
  ret (created_response d).

(** [try { ... } catch (error) { ROLLBACK; 400 }] on a client. *)
Definition purchase_on (env : Env) (userId : string) (body : PurchaseBody)
    (client : Session) : Response num * Session :=
  match purchase_try env userId body client with
  | (Ok response, s) => (response, s)
  | (Throw e, s) => (BadRequest e, rollback s)
  end.

(** The route: take a client, run the handler, release the client. The
    store afterwards is what the client left committed. *)
Definition purchase (env : Env) (db : Store num) (userId : string)
    (body : PurchaseBody) : Response num * Store num :=
  let (response, s) := purchase_on env userId body (getClient db) in
  (response, committed s).

(** What the ticket-creating loops append to [createdTickets]. *)
Definition code_of_draws (draws : list nat) : string :=
  fold_left (fun result i => (result ++ charAt chars i)%string) draws "".

Definition draws_from (env : Env) (k n : nat) : list nat :=
  map (random_index env) (seq k n).

(** ** Requests in flight at the same time

    Each request has its own pooled client. [ticketTypesQuery] carries no
    locking clause and the handler sets no isolation level, so a client
    reads the rows committed so far and its own writes; its inserts
    become visible to the others at its COMMIT. A request suspends at
    each [await]; the schedule below lets it run from [BEGIN] to the
    UPDATE in one go ([Arrive]) and issue its COMMIT later ([Resume]). *)

Record InFlight := {
  if_env : Env;
  if_client : Session;
  if_draft : Draft
}.

Record Server := {
  shared : Store num;
  in_flight : list InFlight;
  responses : list (Response num)
}.

Inductive Action :=
| Arrive (env : Env) (userId : string) (body : PurchaseBody)
| Resume (i : nat).

Definition commit_in_flight (db : Store num) (r : InFlight)
    : Response num * Store num :=
  match (_ <- query_commit (if_env r) ;; ret (created_response (if_draft r)))
          (with_committed db (if_client r)) with
  | (Ok response, s) => (response, committed s)
  | (Throw e, s) => (BadRequest e, committed (rollback s))
  end.

Definition server_step (sv : Server) (a : Action) : Server :=
  match a with
  | Arrive env userId body =>
      match purchase_statements env userId body (getClient (shared sv)) with
      | (Ok d, s) =>
          {| shared := shared sv;
             in_flight := in_flight sv ++
                            [{| if_env := env; if_client := s; if_draft := d |}];
             responses := responses sv |}
      | (Throw e, s) =>
          {| shared := committed (rollback s);
             in_flight := in_flight sv;
             responses := responses sv ++ [BadRequest e] |}
      end
  | Resume i =>
      match nth_error (in_flight sv) i with
      | None => sv
      | Some r =>
          let (response, db) := commit_in_flight (shared sv) r in
          {| shared := db;
             in_flight := firstn i (in_flight sv) ++ skipn (S i) (in_flight sv);
             responses := responses sv ++ [response] |}
      end
  end.

Definition server_run (sv : Server) (schedule : list Action) : Server :=
  fold_left server_step schedule sv.

Definition serve (db : Store num) : Server :=
  {| shared := db; in_flight := []; responses := [] |}.

End Model.

Arguments Throw {A} e.
Arguments Session num : clear implicits.
Arguments M num A : clear implicits.
Arguments TicketTypeRow num : clear implicits.
Arguments Draft num : clear implicits.
Arguments CreatedTicket num : clear implicits.
Arguments InFlight num : clear implicits.
Arguments Server num : clear implicits.

(** * Vocabulary of the properties *)

Section Vocabulary.

Context {num : Type} `{Number num}.

(** The writes of a purchase that reaches COMMIT, in statement order. *)
Definition purchase_writes (o : Order num) (ts : list (Ticket num)) : list (Write num) :=
  InsertOrder o :: map (@InsertTicket num) ts ++ [UpdateOrderStatus "completed" (o_id o)].

(** The codes of [n] successive calls of [generateTicketCode] when [k]
    random numbers have been drawn before. *)
Fixpoint codes_from (env : Env) (k n : nat) : list string :=
  match n with
  | O => []
  | S n' => code_of_draws (draws_from env k 10) :: codes_from env (k + 10) n'
  end.

Definition ticket_type_view (ticketType : TicketTypeRow num) : TicketTypeView num :=
  {| ttv_name := tt_name ticketType; ttv_price := tt_price ticketType |}.

(** [c] was pushed onto [createdTickets] while the handler served [order]. *)
Definition created_for (orderId : string) (info : CustomerInfo)
    (ticketTypes : list (TicketTypeRow num)) (order : TicketOrder)
    (c : CreatedTicket num) : Prop :=
  exists ticketType ticketId ticketCode,
    find_ticket_type ticketTypes (ticketTypeId order) = Some ticketType /\
    c = (new_ticket ticketId ticketCode orderId order info,
         ticket_type_view ticketType).

(** The ticket type ids of the rows the creation loops insert. *)
Definition issued_type_ids (orders : list TicketOrder) : list string :=
  flat_map (fun order => repeat (ticketTypeId order) (Z.to_nat (quantity order))) orders.

(** Why the [try] block of a request on [db] threw [e]. *)
Definition rejection (env : Env) (db : Store num) (body : PurchaseBody)
    (e : PurchaseError) : Prop :=
  (exists k, e = StoreFailure k /\ fault env k = true) \/
  (e = EventNotAvailable /\ eventQuery (eventId body) db = []) \/
  (exists event rest,
     eventQuery (eventId body) db = event :: rest /\
     ((e = EventAlreadyStarted /\ (ev_start_date event <=? now env) = true) \/
      ((ev_start_date event <=? now env) = false /\
       let ticketTypeIds := map ticketTypeId (ticketOrders body) in
       let ticketTypes := ticketTypesQuery ticketTypeIds (eventId body) db in
       ((e = TicketTypesNotFound /\ length ticketTypes <> length ticketTypeIds) \/
        (length ticketTypes = length ticketTypeIds /\
         validate_orders env ticketTypes (ticketOrders body) [] num_zero = Throw e))))).

(** What holds of the draft of a request on [db] that reached COMMIT. *)
Definition accepted (env : Env) (db : Store num) (body : PurchaseBody)
    (d : Draft num) : Prop :=
  let ticketTypeIds := map ticketTypeId (ticketOrders body) in
  (exists event rest,
     eventQuery (eventId body) db = event :: rest /\
     (ev_start_date event <=? now env) = false) /\
  d_ticketTypes d = ticketTypesQuery ticketTypeIds (eventId body) db /\
  length (d_ticketTypes d) = length ticketTypeIds /\
  validate_orders env (d_ticketTypes d) (ticketOrders body) [] num_zero =
    Ok (d_ticketQuantities d, d_totalAmount d) /\
  d_orderId d = uuidv4 env 0 /\
  Forall (fun c => exists order, In order (ticketOrders body) /\
            created_for (d_orderId d) (customerInfo body) (d_ticketTypes d) order c)
         (d_createdTickets d) /\
  map (fun c => t_ticket_type_id (fst c)) (d_createdTickets d) =
    issued_type_ids (ticketOrders body) /\
  map (fun c => t_code (fst c)) (d_createdTickets d) =
    codes_from env 0 (length (d_createdTickets d)) /\
  (forall k, (k < 5 + length (d_createdTickets d))%nat -> fault env k = false).

(** The rows a successful purchase commits. *)
Definition draft_writes (userId : string) (body : PurchaseBody) (d : Draft num)
    : list (Write num) :=
  purchase_writes (new_order (d_orderId d) userId body (d_totalAmount d))
                  (map fst (d_createdTickets d)).

(** [id] is the primary key of [ticket_types]. *)
Definition primary_keys (db : Store num) : Prop :=
  NoDup (map (@tt_id num) (ticket_types db)).

(** No ticket type has more tickets that are not cancelled than its capacity. *)
Definition within_capacity (db : Store num) : Prop :=
  forall tt, In tt (ticket_types db) ->
    Z.of_nat (count_sold db (tt_id tt)) <= tt_quantity tt.

(** The stores a sequence of purchase requests, served one after the
    other, leads to. *)
Inductive reachable (db0 : Store num) : Store num -> Prop :=
| reachable_start : reachable db0 db0
| reachable_purchase db env userId body :
    reachable db0 db ->
    reachable db0 (snd (purchase env db userId body)).

(** The [WHERE] clause of [ticketTypesQuery] for one id. *)
Definition on_sale_for (eventId id : string) (tt : TicketType num) : bool :=
  String.eqb (tt_id tt) id && String.eqb (tt_event_id tt) eventId
  && is_null (tt_deleted_at tt).

(** The price the store holds for a line item of a request. *)
Definition stored_price (db : Store num) (eventId : string) (line : TicketOrder)
    : option num :=
  option_map (@tt_price num)
    (find (on_sale_for eventId (ticketTypeId line)) (ticket_types db)).

(** The sum of [price * quantity] over the line items, in request order. *)
Definition sum_of_lines (db : Store num) (body : PurchaseBody) : num :=
  fold_left (fun total line =>
               match stored_price db (eventId body) line with
               | Some price => num_add total (num_times price (quantity line))
               | None => total
               end)
            (ticketOrders body) num_zero.

(** A line item passes every check of the validation loop. *)
Definition admissible (env : Env) (ticketTypes : list (TicketTypeRow num))
    (line : TicketOrder) : Prop :=
  exists ticketType, validate_order env ticketTypes line = Ok ticketType.

(** A ticket code as the generator is meant to produce it. *)
Definition code_format (code : string) : Prop :=
  String.length code = 10%nat /\
  forall c, In c (list_ascii_of_string code) -> In c (list_ascii_of_string chars).

(** The event of a request can be bought for: it is found, not deleted,
    published, and has not started. *)
Definition purchasable (env : Env) (db : Store num) (body : PurchaseBody) : Prop :=
  exists event rest,
    eventQuery (eventId body) db = event :: rest /\
    (ev_start_date event <=? now env) = false.

(** The ticket types the availability query returns for a request. *)
Definition resolved (db : Store num) (body : PurchaseBody) : list (TicketTypeRow num) :=
  ticketTypesQuery (map ticketTypeId (ticketOrders body)) (eventId body) db.

(** Every requested id is a distinct ticket type of the event. *)
Definition all_resolved (db : Store num) (body : PurchaseBody) : Prop :=
  length (resolved db body) = length (ticketOrders body).

End Vocabulary.

(** * Vocabulary for exact amounts *)

(** The sum of a list of amounts in integer cents. *)
Definition zsum (amounts : list Z) : Z := fold_right Z.add 0 amounts.

(** The price the fetched rows hold for a ticket type id. *)
Definition price_of (ticketTypes : list (TicketTypeRow Z)) (id : string) : Z :=
  match find_ticket_type ticketTypes id with
  | Some ticketType => tt_price ticketType
  | None => 0
  end.

(** * A sample store

    One published event that starts at time 1000, seen at time 500, with
    three ticket types priced in cents: one seat left in "General", a
    "VIP" tier limited to two per order, and an "Early" tier whose sale
    ended at time 400. *)

Definition sample_event : Event :=
  {| ev_id := "e1"; ev_deleted_at := None; ev_status := "published";
     ev_start_date := 1000 |}.

Definition general : TicketType Z :=
  {| tt_id := "t1"; tt_event_id := "e1"; tt_name := "General"; tt_price := 2000;
     tt_quantity := 1; tt_max_per_order := 5;
     tt_sale_start_date := None; tt_sale_end_date := None;
     tt_is_active := true; tt_deleted_at := None |}.

Definition vip : TicketType Z :=
  {| tt_id := "t2"; tt_event_id := "e1"; tt_name := "VIP"; tt_price := 5000;
     tt_quantity := 10; tt_max_per_order := 2;
     tt_sale_start_date := Some 100; tt_sale_end_date := Some 900;
     tt_is_active := true; tt_deleted_at := None |}.

Definition early : TicketType Z :=
  {| tt_id := "t3"; tt_event_id := "e1"; tt_name := "Early"; tt_price := 1000;
     tt_quantity := 10; tt_max_per_order := 5;
     tt_sale_start_date := Some 100; tt_sale_end_date := Some 400;
     tt_is_active := true; tt_deleted_at := None |}.

Definition sample_db : Store Z :=
  {| events := [sample_event]; ticket_types := [general; vip; early];
     tickets := []; orders := [] |}.

Definition digit (k : nat) : string :=
  String (ascii_of_nat (48 + k mod 10)) EmptyString.

(** A well-behaved environment: distinct ids, draws that walk through the
    alphabet, a store that accepts every statement. *)
Definition sample_env : Env :=
  {| now := 500;
     uuidv4 := fun k => ("a-" ++ digit k)%string;
     random_index := fun k => (k mod 36)%nat;
     fault := fun _ => false |}.

(** A second request's environment, with ids of its own. *)
Definition other_env : Env :=
  {| now := 500;
     uuidv4 := fun k => ("b-" ++ digit k)%string;
     random_index := fun k => ((k + 7) mod 36)%nat;
     fault := fun _ => false |}.

(** [Math.random] repeats itself: every draw is 0. *)
Definition repeating_env : Env :=
  {| now := 500;
     uuidv4 := fun k => ("a-" ++ digit k)%string;
     random_index := fun _ => 0%nat;
     fault := fun _ => false |}.

(** The same draws, against a store that rejects the sixth statement (the
    second ticket INSERT of a request for two tickets) because the code is
    taken. *)
Definition conflict_env : Env :=
  {| now := 500;
     uuidv4 := fun k => ("a-" ++ digit k)%string;
     random_index := fun _ => 0%nat;
     fault := fun k => (k =? 5)%nat |}.

(** The same event on the PostgreSQL tables, with a ticket type priced
    1.10 read back as a JavaScript number. *)
Definition standard : TicketType PrimFloat.float :=
  {| tt_id := "t4"; tt_event_id := "e1"; tt_name := "Standard";
     tt_price := PrimFloat.div (float_of_Z 110) (float_of_Z 100);
     tt_quantity := 10; tt_max_per_order := 5;
     tt_sale_start_date := None; tt_sale_end_date := None;
     tt_is_active := true; tt_deleted_at := None |}.

Definition decimal_db : Store PrimFloat.float :=
  {| events := [sample_event]; ticket_types := [standard];
     tickets := []; orders := [] |}.

Definition buyer : CustomerInfo :=
  {| firstName := "Ada"; lastName := "Lovelace"; email := "ada@example.org";
     phone := None |}.

Definition request (lines : list TicketOrder) : PurchaseBody :=
  {| eventId := "e1"; ticketOrders := lines; customerInfo := buyer |}.

Definition line (id : string) (q : Z) : TicketOrder :=
  {| ticketTypeId := id; quantity := q |}.

(** * Properties *)

Unset Implicit Arguments.

Section Properties.

Context {num : Type} `{Number num}.

Implicit Types (env : Env) (db : Store num) (s : Session num)
  (body : PurchaseBody) (order : TicketOrder).

(** ** The store's statements *)

Lemma apply_writes_app db (ws1 ws2 : list (Write num)) :
  apply_writes db (ws1 ++ ws2) = apply_writes (apply_writes db ws1) ws2.
Proof. unfold apply_writes. apply fold_left_app. Qed.

Lemma apply_insert_tickets db (ts : list (Ticket num)) :
  apply_writes db (map (@InsertTicket num) ts) =
  {| events := events db; ticket_types := ticket_types db;
     tickets := tickets db ++ ts; orders := orders db |}.
Proof.
  revert db. induction ts as [|t ts IH]; intros db; simpl.
  - rewrite app_nil_r. destruct db; reflexivity.
  - unfold apply_writes in *. simpl. rewrite IH. simpl.
    rewrite <- app_assoc. reflexivity.
Qed.

Lemma apply_purchase_writes db o ts :
  apply_writes db (purchase_writes o ts) =
  {| events := events db; ticket_types := ticket_types db;
     tickets := tickets db ++ ts;
     orders := map (fun x => if String.eqb (o_id x) (o_id o)
                             then set_order_status "completed" x else x)
                   (orders db ++ [stored_order o]) |}.
Proof.
  unfold purchase_writes.
  change (InsertOrder o :: ?l) with ([InsertOrder o] ++ l).
  rewrite !apply_writes_app, apply_insert_tickets. reflexivity.
Qed.

(** A statement inside an open transaction leaves the committed rows
    alone, whether the store accepts it or not. *)
Lemma query_write_spec env (w : Write num) s l r s' :
  tx_log s = Some l ->
  query_write env w s = (r, s') ->
  committed s' = committed s /\ uuids s' = uuids s /\ randoms s' = randoms s /\
  statements s' = S (statements s) /\
  ((r = Ok tt /\ fault env (statements s) = false /\ tx_log s' = Some (l ++ [w])) \/
   (r = Throw (StoreFailure (statements s)) /\ fault env (statements s) = true /\
    tx_log s' = Some l)).
Proof.
  unfold query_write, client_query, run_write. intros Hl E.
  destruct (fault env (statements s)); simpl in E.
  - inversion E; subst; simpl. repeat split; auto.
  - rewrite Hl in E. inversion E; subst; simpl. repeat split; auto.
Qed.

Lemma call_uuidv4_spec env s :
  exists s', call_uuidv4 env s = (Ok (uuidv4 env (uuids s)), s') /\
    committed s' = committed s /\ tx_log s' = tx_log s /\
    statements s' = statements s /\ uuids s' = S (uuids s) /\
    randoms s' = randoms s.
Proof. eexists. split; [reflexivity|]. simpl. repeat split. Qed.

(** ** [generateTicketCode] *)

Lemma generateTicketCode_loop_spec env n : forall result s,
  exists s',
    generateTicketCode_loop env n result s =
      (Ok (fold_left (fun r i => (r ++ charAt chars i)%string)
                     (draws_from env (randoms s) n) result), s') /\
    committed s' = committed s /\ tx_log s' = tx_log s /\
    statements s' = statements s /\ uuids s' = uuids s /\
    randoms s' = (randoms s + n)%nat.
Proof.
  induction n as [|n IH]; intros result s.
  - exists s. simpl. repeat split; auto.
  - simpl. unfold bind at 1. simpl.
    match goal with |- context [generateTicketCode_loop env n ?r ?s0] =>
      destruct (IH r s0) as (s' & E & Hc & Hl & Hs & Hu & Hr) end.
    exists s'. rewrite E. simpl in *. repeat split; auto. lia.
Qed.

Lemma generateTicketCode_spec env s :
  exists s',
    generateTicketCode env s = (Ok (code_of_draws (draws_from env (randoms s) 10)), s') /\
    committed s' = committed s /\ tx_log s' = tx_log s /\
    statements s' = statements s /\ uuids s' = uuids s /\
    randoms s' = (randoms s + 10)%nat.
Proof. apply generateTicketCode_loop_spec. Qed.

(** ** The ticket-creating loops *)

Lemma codes_from_app env k n m :
  codes_from env k (n + m) = codes_from env k n ++ codes_from env (k + 10 * n) m.
Proof.
  revert k. induction n as [|n IH]; intros k; simpl.
  - f_equal. lia.
  - rewrite IH. do 3 f_equal. lia.
Qed.

Lemma create_order_tickets_spec env orderId info ticketTypes order
    (ticketType : TicketTypeRow num) :
  find_ticket_type ticketTypes (ticketTypeId order) = Some ticketType ->
  forall n createdTickets s l r s',
  tx_log s = Some l ->
  create_order_tickets env orderId info order ticketType n createdTickets s = (r, s') ->
  committed s' = committed s /\
  match r with
  | Ok out =>
      exists new,
        out = createdTickets ++ new /\ length new = n /\
        tx_log s' = Some (l ++ map (@InsertTicket num) (map fst new)) /\
        Forall (created_for orderId info ticketTypes order) new /\
        map (fun c => t_code (fst c)) new = codes_from env (randoms s) n /\
        randoms s' = (randoms s + 10 * n)%nat /\
        statements s' = (statements s + n)%nat /\
        uuids s' = (uuids s + n)%nat /\
        (forall k, (statements s <= k < statements s')%nat -> fault env k = false)
  | Throw e => exists k, e = StoreFailure k /\ fault env k = true
  end.
Proof.
  intros Hfind. induction n as [|n IH]; intros created s l r s' Hl E.
  - simpl in E. inversion E; subst. split; [reflexivity|].
    exists []. rewrite app_nil_r. simpl. rewrite app_nil_r.
    repeat split; auto; try lia.
  - simpl in E. unfold bind at 1 in E.
    destruct (call_uuidv4_spec env s) as (s1 & E1 & Hc1 & Hl1 & Hs1 & Hu1 & Hr1).
    rewrite E1 in E. unfold bind at 1 in E.
    destruct (generateTicketCode_spec env s1) as (s2 & E2 & Hc2 & Hl2 & Hs2 & Hu2 & Hr2).
    rewrite E2 in E. unfold bind at 1 in E.
    match type of E with context [query_write env ?w s2] =>
      destruct (query_write env w s2) as [r3 s3] eqn:E3 end.
    assert (Hl2' : tx_log s2 = Some l) by congruence.
    destruct (query_write_spec env _ s2 _ _ _ Hl2' E3)
      as (Hc3 & Hu3 & Hr3 & Hs3 & [(-> & Hf & Hl3) | (-> & Hf & Hl3)]).
    + apply IH with (l := l ++ [InsertTicket
          (new_ticket (uuidv4 env (uuids s)) (code_of_draws (draws_from env (randoms s1) 10))
             orderId order info)]) in E; [|exact Hl3].
      destruct E as (Hc & Hr).
      split; [congruence|].
      destruct r as [out|e]; [|exact Hr].
      destruct Hr as (new & -> & Hlen & Hlog & Hall & Hcodes & Hrand & Hstmt & Huu & Hnf).
      eexists (_ :: new). rewrite <- app_assoc. split; [reflexivity|].
      simpl. split; [lia|]. split.
      { rewrite Hlog, <- app_assoc. reflexivity. }
      split.
      { constructor; [|exact Hall]. exists ticketType. eexists. eexists.
        split; [exact Hfind|reflexivity]. }
      split.
      { rewrite Hcodes. f_equal; [congruence|]. f_equal. lia. }
      split; [lia|]. split; [lia|]. split; [lia|].
      intros k Hk. destruct (Nat.eq_dec k (statements s2)) as [->|Hne]; [exact Hf|].
      apply Hnf. lia.
    + inversion E; subst. split; [congruence|].
      eexists. split; [reflexivity|exact Hf].
Qed.

Lemma created_for_type_ids orderId info ticketTypes order (new : list (CreatedTicket num)) :
  Forall (created_for orderId info ticketTypes order) new ->
  map (fun c => t_ticket_type_id (fst c)) new = repeat (ticketTypeId order) (length new).
Proof.
  intros Hall. induction Hall as [|c new Hc _ IH]; simpl; [reflexivity|].
  destruct Hc as (ticketType & ticketId & ticketCode & _ & ->). simpl.
  now rewrite IH.
Qed.

Lemma create_tickets_spec env orderId info ticketTypes :
  forall orders createdTickets s l r s',
  tx_log s = Some l ->
  create_tickets env orderId info ticketTypes orders createdTickets s = (r, s') ->
  committed s' = committed s /\
  match r with
  | Ok out =>
      exists new,
        out = createdTickets ++ new /\
        tx_log s' = Some (l ++ map (@InsertTicket num) (map fst new)) /\
        Forall (fun c => exists order, In order orders /\
                  created_for orderId info ticketTypes order c) new /\
        map (fun c => t_ticket_type_id (fst c)) new = issued_type_ids orders /\
        map (fun c => t_code (fst c)) new = codes_from env (randoms s) (length new) /\
        statements s' = (statements s + length new)%nat /\
        (forall k, (statements s <= k < statements s')%nat -> fault env k = false)
  | Throw e =>
      (exists k, e = StoreFailure k /\ fault env k = true) \/
      (e = UndefinedTicketType /\
       exists order, In order orders /\
         find_ticket_type ticketTypes (ticketTypeId order) = None)
  end.
Proof.
  intros orders. induction orders as [|order rest IH]; intros created s l r s' Hl E.
  - simpl in E. inversion E; subst. split; [reflexivity|].
    exists []. simpl. rewrite !app_nil_r. repeat split; auto; try lia.
  - simpl in E.
    destruct (find_ticket_type ticketTypes (ticketTypeId order)) as [ticketType|] eqn:Hfind.
    + unfold bind at 1 in E.
      destruct (create_order_tickets env orderId info order ticketType
                  (Z.to_nat (quantity order)) created s) as [r1 s1] eqn:E1.
      eapply create_order_tickets_spec in E1; [|exact Hfind|exact Hl].
      destruct E1 as (Hc1 & Hr1).
      destruct r1 as [out1|e1].
      * destruct Hr1 as (new1 & -> & Hlen1 & Hlog1 & Hall1 & Hcodes1 & Hrand1 & Hstmt1 & _ & Hnf1).
        destruct (IH _ _ _ _ _ Hlog1 E) as (Hc & Hr).
        split; [congruence|].
        destruct r as [out|e].
        -- destruct Hr as (new & -> & Hlog & Hall & Hids & Hcodes & Hstmt & Hnf).
           exists (new1 ++ new). rewrite <- app_assoc. split; [reflexivity|].
           split. { rewrite Hlog, <- app_assoc, !map_app. reflexivity. }
           split.
           { apply Forall_app. split.
             - eapply Forall_impl; [|exact Hall1]. intros c Hc0.
               exists order. split; [now left|exact Hc0].
             - eapply Forall_impl; [|exact Hall]. intros c (o & Ho & Hc0).
               exists o. split; [now right|exact Hc0]. }
           split.
           { rewrite map_app. unfold issued_type_ids in *. simpl.
             f_equal; [|exact Hids]. rewrite <- Hlen1.
             eapply created_for_type_ids; exact Hall1. }
           split.
           { rewrite map_app, length_app, codes_from_app.
             f_equal; [rewrite Hlen1; exact Hcodes1|].
             rewrite Hlen1, <- Hrand1. exact Hcodes. }
           split. { rewrite length_app. lia. }
           intros k Hk. destruct (Nat.lt_ge_cases k (statements s1)).
           ++ apply Hnf1. lia.
           ++ apply Hnf. lia.
        -- destruct Hr as [Hr|(-> & o & Ho & Hnone)]; [now left|].
           right. split; [reflexivity|]. exists o. split; [now right|exact Hnone].
      * inversion E; subst. split; [exact Hc1|]. now left.
    + inversion E; subst. split; [reflexivity|]. right.
      split; [reflexivity|]. exists order. split; [now left|exact Hfind].
Qed.

(** ** The handler, statement by statement *)

Lemma validate_orders_finds env (ticketTypes : list (TicketTypeRow num)) :
  forall orders ticketQuantities totalAmount out,
  validate_orders env ticketTypes orders ticketQuantities totalAmount = Ok out ->
  forall order, In order orders ->
    find_ticket_type ticketTypes (ticketTypeId order) <> None.
Proof.
  intros orders. induction orders as [|o rest IH]; intros q t out E order Hin.
  - destruct Hin.
  - simpl in E. destruct (validate_order env ticketTypes o) as [row|e] eqn:Ev; [|discriminate].
    destruct Hin as [<-|Hin].
    + unfold validate_order in Ev.
      destruct (find_ticket_type ticketTypes (ticketTypeId o)); [discriminate|discriminate].
    + eapply IH; eassumption.
Qed.

Lemma bind_inv {A B} (m : M num A) (f : A -> M num B) s r s' :
  bind m f s = (r, s') ->
  (exists a s1, m s = (Ok a, s1) /\ f a s1 = (r, s')) \/
  (exists e, m s = (Throw e, s') /\ r = Throw e).
Proof.
  unfold bind. destruct (m s) as [[a|e] s1]; intros E.
  - left. eauto.
  - right. inversion E; subst. eauto.
Qed.

Lemma client_query_spec {A} env (run : Session num -> A * Session num) s r s' :
  client_query env run s = (r, s') ->
  (fault env (statements s) = true /\ r = Throw (StoreFailure (statements s)) /\
   s' = next_statement s) \/
  (fault env (statements s) = false /\ r = Ok (fst (run (next_statement s))) /\
   s' = snd (run (next_statement s))).
Proof.
  unfold client_query. destruct (fault env (statements s)); intros E.
  - left. inversion E; auto.
  - right. destruct (run (next_statement s)). inversion E; auto.
Qed.

Ltac bind_step E a s1 E1 :=
  apply bind_inv in E;
  destruct E as [(a & s1 & E1 & E) | (?e & E1 & ->)].

Lemma purchase_statements_spec env db userId body r s' :
  purchase_statements env userId body (getClient db) = (r, s') ->
  committed s' = db /\
  match r with
  | Ok d =>
      accepted env db body d /\
      tx_log s' = Some (draft_writes userId body d) /\
      statements s' = (5 + length (d_createdTickets d))%nat
  | Throw e => rejection env db body e
  end.
Proof.
  unfold purchase_statements. intros E.
  (* BEGIN *)
  bind_step E u0 s1 E1; apply client_query_spec in E1; simpl in E1;
    destruct E1 as [(F0 & E1 & ->) | (F0 & E1 & ->)]; try discriminate.
  2: { inversion E1; subst. split; [reflexivity|]. left. eauto. }
  clear E1 u0.
  (* the event *)
  bind_step E eventResult s2 E2; apply client_query_spec in E2; simpl in E2;
    destruct E2 as [(F1 & E2 & ->) | (F1 & E2 & ->)]; try discriminate.
  2: { inversion E2; subst. split; [reflexivity|]. left. eauto. }
  inversion E2; subst eventResult; clear E2.
  unfold visible in E; simpl in E.
  destruct (eventQuery (eventId body) db) as [|event rest] eqn:Hev.
  { inversion E; subst. split; [reflexivity|]. right. left. split; [reflexivity|exact Hev]. }
  destruct (ev_start_date event <=? now env) eqn:Hstart.
  { inversion E; subst. split; [reflexivity|].
    right. right. exists event, rest. split; [exact Hev|]. left. auto. }
  (* the ticket types *)
  bind_step E ticketTypes s3 E3; apply client_query_spec in E3; simpl in E3;
    destruct E3 as [(F2 & E3 & ->) | (F2 & E3 & ->)]; try discriminate.
  2: { inversion E3; subst. split; [reflexivity|]. left. eauto. }
  inversion E3; subst ticketTypes; clear E3.
  unfold visible in E; simpl in E.
  set (ids := map ticketTypeId (ticketOrders body)) in *.
  set (rows := ticketTypesQuery ids (eventId body) db) in *.
  destruct (length rows =? length ids)%nat eqn:Hlen; simpl in E.
  2: { inversion E; subst. split; [reflexivity|].
       right. right. exists event, rest. split; [exact Hev|]. right.
       split; [exact Hstart|]. left. split; [reflexivity|].
       now apply Nat.eqb_neq. }
  apply Nat.eqb_eq in Hlen.
  (* the checks *)
  bind_step E validated s4 E4; unfold lift in E4; injection E4 as Hval <-.
  2: { split; [reflexivity|].
       right. right. exists event, rest. split; [exact Hev|]. right.
       split; [exact Hstart|]. right. split; [assumption|]. exact Hval. }
  destruct validated as [ticketQuantities totalAmount].
  (* the order *)
  bind_step E orderId s5 E5; [|discriminate].
  inversion E5; subst orderId s5; clear E5. simpl in E.
  bind_step E u6 s6 E6; eapply query_write_spec in E6; try reflexivity;
    simpl in E6; destruct E6 as (Hc6 & Hu6 & Hr6 & Hs6 & [(E6 & F3 & Hl6) | (E6 & F3 & Hl6)]);
    try discriminate.
  2: { injection E6 as ->. split; [exact Hc6|]. left. eauto. }
  clear E6 u6.
  (* the tickets *)
  bind_step E created s7 E7; eapply create_tickets_spec in E7; try exact Hl6;
    destruct E7 as (Hc7 & Hr7).
  2: { split; [congruence|].
       destruct Hr7 as [Hr7|(-> & order & Hin & Hnone)]; [left; exact Hr7|].
       exfalso. eapply validate_orders_finds; eauto. }
  destruct Hr7 as (new & -> & Hlog7 & Hall & Hids & Hcodes & Hstmt7 & Hnf7).
  simpl in *.
  (* the order is completed *)
  bind_step E u8 s8 E8; eapply query_write_spec in E8; try exact Hlog7;
    destruct E8 as (Hc8 & Hu8 & Hr8 & Hs8 & [(E8 & F5 & Hl8) | (E8 & F5 & Hl8)]);
    try discriminate.
  2: { injection E8 as ->. split; [congruence|]. left. eauto. }
  injection E as <- <-. split; [congruence|]. simpl.
  split; [|split].
  - unfold accepted; simpl. split; [exists event, rest; auto|].
    repeat (split; [first [reflexivity | assumption]|]).
    split.
    { rewrite <- Hr6. exact Hcodes. }
    intros k Hk.
    destruct k as [|[|[|[|k]]]]; try assumption.
    destruct (Nat.eq_dec (S (S (S (S k)))) (statements s7)) as [Heq|Hne].
    + rewrite Heq. exact F5.
    + apply Hnf7. lia.
  - rewrite Hl8. unfold draft_writes, purchase_writes. simpl. reflexivity.
  - lia.
Qed.

(** The outcome of the route, read off the handler: a 400 leaves the
    store as it was and has one of the causes of [rejection]; a 201
    commits exactly the writes of its draft. *)
Lemma purchase_spec env db userId body response db' :
  purchase env db userId body = (response, db') ->
  match response with
  | BadRequest e => db' = db /\ rejection env db body e
  | Created order tks =>
      exists d,
        accepted env db body d /\
        Created order tks = created_response d /\
        db' = apply_writes db (draft_writes userId body d) /\
        fault env (5 + length (d_createdTickets d)) = false
  end.
Proof.
  unfold purchase, purchase_on, purchase_try. intros E.
  destruct (bind (purchase_statements env userId body) _ (getClient db))
    as [r s] eqn:Eb.
  apply bind_inv in Eb. destruct Eb as [(d & s1 & E1 & Eb) | (e & E1 & ->)].
  - apply purchase_statements_spec in E1. destruct E1 as (Hc & Hacc & Hlog & Hstmt).
    apply bind_inv in Eb. destruct Eb as [(u & s2 & E2 & Eb) | (e & E2 & ->)].
    + apply client_query_spec in E2.
      destruct E2 as [(F & E2 & ->) | (F & E2 & ->)]; [discriminate|].
      unfold ret in Eb. injection Eb as <- <-. injection E as <- <-.
      exists d. split; [exact Hacc|]. split; [reflexivity|].
      split; [|rewrite <- Hstmt; exact F].
      simpl. unfold visible. simpl. rewrite Hlog, Hc. reflexivity.
    + apply client_query_spec in E2.
      destruct E2 as [(F & E2 & ->) | (F & E2 & ->)]; [|discriminate].
      injection E2 as ->. injection E as <- <-. simpl.
      split; [exact Hc|]. left. eauto.
  - apply purchase_statements_spec in E1. destruct E1 as (Hc & Hrej).
    injection E as <- <-. simpl. split; [exact Hc|exact Hrej].
Qed.

Lemma purchase_error_unchanged env db userId body e db' :
  purchase env db userId body = (BadRequest e, db') -> db' = db.
Proof. intros E. apply purchase_spec in E. apply E. Qed.

Lemma draft_writes_store db userId body (d : Draft num) :
  let db' := apply_writes db (draft_writes userId body d) in
  events db' = events db /\
  ticket_types db' = ticket_types db /\
  tickets db' = tickets db ++ map fst (d_createdTickets d) /\
  orders db' =
    map (fun x => if String.eqb (o_id x) (d_orderId d)
                  then set_order_status "completed" x else x)
        (orders db ++
           [stored_order (new_order (d_orderId d) userId body (d_totalAmount d))]).
Proof.
  unfold draft_writes. rewrite apply_purchase_writes. simpl. auto.
Qed.

(** ** Ticket types resolved by the availability query *)

(** Selecting rows of a table keeps its keys distinct. *)
Lemma distinct_keys_selected {Row Key} (key : Row -> Key) (table : list Row) :
  NoDup (map key table) ->
  forall keep : Row -> bool, NoDup (map key (filter keep table)).
Proof.
  intros Hnd keep. induction table as [|row table IH]; simpl; [constructor|].
  simpl in Hnd. apply NoDup_cons_iff in Hnd. destruct Hnd as (Hnew & Hnd).
  destruct (keep row); simpl; [|now apply IH].
  apply NoDup_cons; [|now apply IH].
  intros Hin. apply Hnew. apply in_map_iff in Hin.
  destruct Hin as (other & Hkey & Hin). apply filter_In in Hin.
  apply in_map_iff. exists other. tauto.
Qed.

Lemma ticketTypesQuery_ids ids eid db :
  map (fun row : TicketTypeRow num => tt_id row) (ticketTypesQuery ids eid db) =
  map (@tt_id num)
      (filter (fun tt => existsb (String.eqb (tt_id tt)) ids
                         && String.eqb (tt_event_id tt) eid
                         && is_null (tt_deleted_at tt))
              (ticket_types db)).
Proof. unfold ticketTypesQuery. rewrite map_map. reflexivity. Qed.

Lemma ticketTypesQuery_In ids eid db (row : TicketTypeRow num) :
  In row (ticketTypesQuery ids eid db) ->
  In (row_type row) (ticket_types db) /\
  sold_count row = count_sold db (tt_id row) /\
  In (tt_id row) ids /\ tt_event_id row = eid /\ tt_deleted_at row = None.
Proof.
  unfold ticketTypesQuery. intros Hin. apply in_map_iff in Hin.
  destruct Hin as (tt & <- & Hin). apply filter_In in Hin.
  destruct Hin as (Hin & Hp). simpl.
  apply andb_true_iff in Hp. destruct Hp as (Hp & Hdel).
  apply andb_true_iff in Hp. destruct Hp as (Hany & Hev).
  apply existsb_exists in Hany. destruct Hany as (id & Hid & Heq).
  apply String.eqb_eq in Heq. apply String.eqb_eq in Hev.
  repeat split; auto.
  - now rewrite Heq.
  - destruct (tt_deleted_at tt); [discriminate|reflexivity].
Qed.

Lemma resolved_ids_incl ids eid db :
  incl (map (fun row : TicketTypeRow num => tt_id row) (ticketTypesQuery ids eid db)) ids.
Proof.
  intros id Hin. apply in_map_iff in Hin. destruct Hin as (row & <- & Hin).
  now apply ticketTypesQuery_In in Hin.
Qed.

Lemma resolved_ids_NoDup ids eid db :
  primary_keys db ->
  NoDup (map (fun row : TicketTypeRow num => tt_id row) (ticketTypesQuery ids eid db)).
Proof.
  intros Hpk. rewrite ticketTypesQuery_ids. now apply distinct_keys_selected.
Qed.

(** The row count equals the number of requested ids only when the
    requested ids are pairwise distinct. *)
Lemma resolved_all_distinct ids eid db :
  primary_keys db ->
  length (ticketTypesQuery ids eid db) = length ids ->
  NoDup ids.
Proof.
  intros Hpk Hlen.
  apply NoDup_incl_NoDup with
    (l := map (fun row : TicketTypeRow num => tt_id row) (ticketTypesQuery ids eid db)).
  - now apply resolved_ids_NoDup.
  - rewrite length_map. lia.
  - apply resolved_ids_incl.
Qed.

Lemma find_ticket_type_Some (rows : list (TicketTypeRow num)) id row :
  find_ticket_type rows id = Some row -> In row rows /\ tt_id row = id.
Proof.
  unfold find_ticket_type. intros Hf. apply find_some in Hf.
  destruct Hf as (Hin & Heq). apply String.eqb_eq in Heq. auto.
Qed.

(** ** The validation loop *)

Lemma validate_order_Ok env (rows : list (TicketTypeRow num)) line row :
  validate_order env rows line = Ok row ->
  find_ticket_type rows (ticketTypeId line) = Some row /\
  tt_is_active row = true /\
  set_and_after (tt_sale_start_date row) (now env) = false /\
  set_and_before (tt_sale_end_date row) (now env) = false /\
  quantity line <= tt_max_per_order row /\
  quantity line <= tt_quantity row - Z.of_nat (sold_count row).
Proof.
  unfold validate_order.
  destruct (find_ticket_type rows (ticketTypeId line)) as [r|]; [|discriminate].
  destruct (tt_is_active r) eqn:Ha; simpl; [|discriminate].
  destruct (set_and_after _ _) eqn:Hs; [discriminate|].
  destruct (set_and_before _ _) eqn:He; [discriminate|].
  destruct (quantity line >? tt_max_per_order r) eqn:Hm; [discriminate|].
  destruct (quantity line >? tt_quantity r - Z.of_nat (sold_count r)) eqn:Hv;
    [discriminate|].
  intros E. injection E as <-.
  rewrite Z.gtb_ltb in Hm, Hv. apply Z.ltb_ge in Hm. apply Z.ltb_ge in Hv.
  repeat split; auto.
Qed.

Lemma validate_orders_Ok env (rows : list (TicketTypeRow num)) :
  forall lines ticketQuantities totalAmount out,
  validate_orders env rows lines ticketQuantities totalAmount = Ok out ->
  Forall (admissible env rows) lines.
Proof.
  intros lines. induction lines as [|o rest IH]; intros q t out E; [constructor|].
  simpl in E. destruct (validate_order env rows o) as [row|e] eqn:Ev; [|discriminate].
  constructor; [exists row; exact Ev|]. eapply IH; exact E.
Qed.

Lemma validate_orders_admissible env (rows : list (TicketTypeRow num)) :
  forall lines ticketQuantities totalAmount,
  Forall (admissible env rows) lines ->
  exists out, validate_orders env rows lines ticketQuantities totalAmount = Ok out.
Proof.
  intros lines. induction lines as [|o rest IH]; intros q t Hall; simpl; [eauto|].
  inversion Hall as [|x l (row & Hrow) Hrest]; subst. rewrite Hrow. apply IH, Hrest.
Qed.

(** The loop stops at the first line item that fails a check, with the
    error of that check. *)
Lemma validate_orders_first_failure env (rows : list (TicketTypeRow num)) e line post :
  forall pre ticketQuantities totalAmount,
  Forall (admissible env rows) pre ->
  validate_order env rows line = Throw e ->
  validate_orders env rows (pre ++ line :: post) ticketQuantities totalAmount = Throw e.
Proof.
  intros pre. induction pre as [|o pre IH]; intros q t Hall Hline; simpl.
  - now rewrite Hline.
  - inversion Hall as [|x l (row & Hrow) Hrest]; subst. rewrite Hrow. now apply IH.
Qed.

(** ** What a served request leaves behind *)

Lemma purchase_created env db userId body ov tks db' :
  purchase env db userId body = (Created ov tks, db') ->
  exists d,
    accepted env db body d /\
    Created ov tks = created_response d /\
    events db' = events db /\
    ticket_types db' = ticket_types db /\
    tickets db' = tickets db ++ map fst (d_createdTickets d) /\
    orders db' =
      map (fun x => if String.eqb (o_id x) (d_orderId d)
                    then set_order_status "completed" x else x)
          (orders db ++
             [stored_order (new_order (d_orderId d) userId body (d_totalAmount d))]) /\
    fault env (5 + length (d_createdTickets d)) = false.
Proof.
  intros E. apply purchase_spec in E. destruct E as (d & Hacc & Hresp & -> & F).
  exists d. destruct (draft_writes_store db userId body d) as (He & Ht & Htk & Ho).
  split; [exact Hacc|]. split; [exact Hresp|]. auto 6.
Qed.

Lemma created_rows orderId info (rows : list (TicketTypeRow num)) lines
    (created : list (CreatedTicket num)) :
  Forall (fun c => exists order, In order lines /\
            created_for orderId info rows order c) created ->
  Forall (fun t => t_status t = "valid" /\ t_purchase_price t = None /\
                   t_order_id t = orderId) (map fst created) /\
  Forall (fun c => exists row, In row rows /\ snd c = ticket_type_view row /\
                     tt_id row = t_ticket_type_id (fst c)) created.
Proof.
  intros Hall. induction Hall as [|c l Hc _ (IH1 & IH2)]; simpl.
  - split; constructor.
  - destruct Hc as (order & _ & row & ticketId & ticketCode & Hfind & ->).
    apply find_ticket_type_Some in Hfind. destruct Hfind as (Hin & Hid).
    split; constructor; simpl; auto. exists row. auto.
Qed.

(** C3: A purchase attempt that fails at any step of its transaction
    (a check, the order insert, a ticket insert, the update or the commit
    rejected by the store) answers 400 and leaves the store exactly as it
    was: no order row and no ticket row of the attempt persists. The only
    other outcome is the 201, with the order row and every ticket the
    response counts committed together. *)
Theorem failed_purchase_leaves_no_rows env db userId body :
  match fst (purchase env db userId body) with
  | BadRequest _ => snd (purchase env db userId body) = db
  | Created ov tks =>
      length (orders (snd (purchase env db userId body))) = S (length (orders db)) /\
      length (tickets (snd (purchase env db userId body))) =
        (length (tickets db) + ov_ticketCount ov)%nat /\
      length tks = ov_ticketCount ov
  end.
Proof.
  destruct (purchase env db userId body) as [response db'] eqn:E. simpl.
  destruct response as [ov tks|e].
  - apply purchase_created in E.
    destruct E as (d & _ & Hresp & _ & _ & Htk & Ho & _).
    unfold created_response in Hresp. injection Hresp as -> ->. simpl.
    rewrite Ho, Htk, length_map, !length_app, !length_map. simpl.
    repeat split; lia.
  - eapply purchase_error_unchanged; exact E.
Qed.

(** C5 (what the code does): every ticket row a successful purchase
    inserts has status "valid", which is not "active" and is not among the
    four statuses the schema allows. *)
Theorem issued_tickets_have_status_valid env db userId body ov tks db' :
  purchase env db userId body = (Created ov tks, db') ->
  exists new,
    tickets db' = tickets db ++ new /\
    length new = ov_ticketCount ov /\
    Forall (fun t => t_status t = "valid" /\ t_status t <> "active" /\
                     ~ In (t_status t) ticket_statuses) new.
Proof.
  intros E. apply purchase_created in E.
  destruct E as (d & Hacc & Hresp & _ & _ & Htk & _ & _).
  exists (map fst (d_createdTickets d)). split; [exact Htk|].
  unfold created_response in Hresp. injection Hresp as -> _. simpl.
  split; [apply length_map|].
  destruct Hacc as (_ & _ & _ & _ & _ & Hall & _).
  apply created_rows in Hall. destruct Hall as (Hall & _).
  eapply Forall_impl; [|exact Hall]. intros t (-> & _ & _).
  split; [reflexivity|]. split; [discriminate|].
  unfold ticket_statuses. simpl. intros [X|[X|[X|[X|[]]]]]; discriminate.
Qed.

(** C4 (what the code does): the ticket rows a successful purchase
    inserts carry no purchase price at all; the price of the ticket type
    read inside the transaction only reaches the tickets of the response. *)
Theorem issued_tickets_store_no_price env db userId body ov tks db' :
  purchase env db userId body = (Created ov tks, db') ->
  exists new,
    tickets db' = tickets db ++ new /\
    length new = length tks /\
    Forall (fun t => t_purchase_price t = None) new /\
    Forall (fun tv => exists tt, In tt (ticket_types db) /\
                        tt_event_id tt = eventId body /\
                        ttv_name (tv_ticketType tv) = tt_name tt /\
                        ttv_price (tv_ticketType tv) = tt_price tt) tks.
Proof.
  intros E. apply purchase_created in E.
  destruct E as (d & Hacc & Hresp & _ & _ & Htk & _ & _).
  exists (map fst (d_createdTickets d)). split; [exact Htk|].
  unfold created_response in Hresp. injection Hresp as _ ->.
  split; [now rewrite !length_map|].
  destruct Hacc as (_ & Hrows & _ & _ & _ & Hall & _).
  apply created_rows in Hall. destruct Hall as (Hall1 & Hall2).
  split.
  - eapply Forall_impl; [|exact Hall1]. intros t (_ & Hp & _). exact Hp.
  - apply Forall_map. eapply Forall_impl; [|exact Hall2].
    intros c (row & Hin & Hview & _). simpl. rewrite Hview.
    rewrite Hrows in Hin. apply ticketTypesQuery_In in Hin.
    exists (row_type row). simpl. tauto.
Qed.

(** C10: When two or more line items of a request name the same ticket
    type, the whole purchase is rejected and the store is left as it was,
    so no order or ticket row is created; when the event is purchasable
    and the store answers, the rejection is 'One or more ticket types not
    found', because the rows fetched are distinct ticket types and cannot
    be as many as the requested ids. *)
Theorem duplicate_line_items_rejected env db userId body :
  primary_keys db ->
  ~ NoDup (map ticketTypeId (ticketOrders body)) ->
  (exists e, purchase env db userId body = (BadRequest e, db)) /\
  ((forall k, fault env k = false) ->
   (exists event rest, eventQuery (eventId body) db = event :: rest /\
                       (ev_start_date event <=? now env) = false) ->
   purchase env db userId body = (BadRequest TicketTypesNotFound, db)).
Proof.
  intros Hpk Hdup.
  destruct (purchase env db userId body) as [response db'] eqn:E.
  pose proof (purchase_spec _ _ _ _ _ _ E) as Hspec.
  destruct response as [ov tks|e].
  - destruct Hspec as (d & Hacc & _).
    destruct Hacc as (_ & Hrows & Hlen & _). rewrite Hrows in Hlen.
    exfalso. apply Hdup. eapply resolved_all_distinct; eassumption.
  - destruct Hspec as (-> & Hrej). split; [eauto|].
    intros Hnf (event & rest & Hev & Hstart).
    destruct Hrej as [(k & _ & F) | [(_ & Hnone) | (event' & rest' & Hev' & Hrej)]].
    + rewrite Hnf in F. discriminate.
    + rewrite Hev in Hnone. discriminate.
    + rewrite Hev in Hev'. injection Hev' as <- <-.
      destruct Hrej as [(_ & Hs) | (_ & [(-> & _) | (Hlen & _)])].
      * rewrite Hstart in Hs. discriminate.
      * reflexivity.
      * exfalso. apply Hdup. eapply resolved_all_distinct; eassumption.
Qed.

(** ** The total of an order *)

Lemma find_map_filter {A B} (mk : A -> B) (p : A -> bool) (f : B -> bool) (l : list A) :
  find f (map mk (filter p l)) = option_map mk (find (fun x => p x && f (mk x)) l).
Proof.
  induction l as [|x l IH]; simpl; [reflexivity|].
  destruct (p x); simpl; [|exact IH].
  destruct (f (mk x)); [reflexivity|exact IH].
Qed.

Lemma find_pointwise {A} (f g : A -> bool) (l : list A) :
  (forall x, f x = g x) -> find f l = find g l.
Proof.
  intros Hfg. induction l as [|x l IH]; simpl; [reflexivity|].
  rewrite Hfg, IH. reflexivity.
Qed.

Lemma find_resolved_price ids eid db id :
  In id ids ->
  option_map (fun row : TicketTypeRow num => tt_price row)
             (find_ticket_type (ticketTypesQuery ids eid db) id) =
  option_map (@tt_price num) (find (on_sale_for eid id) (ticket_types db)).
Proof.
  intros Hin. unfold find_ticket_type, ticketTypesQuery.
  rewrite find_map_filter. simpl.
  rewrite (find_pointwise _ (on_sale_for eid id)).
  - destruct (find (on_sale_for eid id) (ticket_types db)); reflexivity.
  - intros tt. unfold on_sale_for.
    destruct (String.eqb (tt_id tt) id) eqn:Heq.
    + apply String.eqb_eq in Heq.
      assert (Hany : existsb (String.eqb (tt_id tt)) ids = true).
      { apply existsb_exists. exists id. split; [exact Hin|].
        now apply String.eqb_eq. }
      rewrite Hany. simpl. now rewrite andb_true_r.
    + rewrite andb_false_r. reflexivity.
Qed.

Lemma validate_orders_total env db ids eid :
  forall lines ticketQuantities totalAmount out,
  Forall (fun line => In (ticketTypeId line) ids) lines ->
  validate_orders env (ticketTypesQuery ids eid db) lines ticketQuantities totalAmount
    = Ok out ->
  snd out =
  fold_left (fun total line =>
               match stored_price db eid line with
               | Some price => num_add total (num_times price (quantity line))
               | None => total
               end) lines totalAmount.
Proof.
  intros lines. induction lines as [|o rest IH]; intros q t out Hall E; simpl in *.
  - injection E as <-. reflexivity.
  - inversion Hall as [|x l Hin Hrest]; subst.
    destruct (validate_order env (ticketTypesQuery ids eid db) o) as [row|e] eqn:Ev;
      [|discriminate].
    apply IH in E; [|exact Hrest]. rewrite E.
    apply validate_order_Ok in Ev. destruct Ev as (Hfind & _).
    unfold stored_price. rewrite <- (find_resolved_price ids eid db _ Hin), Hfind.
    reflexivity.
Qed.

(** C6 (amended): For every purchase that is accepted, the grand total
    is the sum, over the line items in request order, of the price the
    store holds for the line's ticket type times the requested quantity;
    that total is the [totalAmount] returned to the caller, and the
    [total_amount] of the order row committed for the purchase is that
    total as the money column holds it (rounded to two decimals by a
    [DECIMAL(10, 2)] column). *)
Theorem order_total_is_sum_of_lines env db userId body ov tks db' :
  purchase env db userId body = (Created ov tks, db') ->
  ov_totalAmount ov = sum_of_lines db body /\
  exists o, In o (orders db') /\ o_id o = ov_id ov /\
            o_total_amount o = num_column (ov_totalAmount ov) /\
            o_user_id o = userId /\ o_status o = "completed".
Proof.
  intros E. apply purchase_created in E.
  destruct E as (d & Hacc & Hresp & _ & _ & _ & Ho & _).
  unfold created_response in Hresp. injection Hresp as -> _. simpl.
  destruct Hacc as (_ & Hrows & _ & Hval & _).
  split.
  - rewrite Hrows in Hval. apply validate_orders_total in Hval; [exact Hval|].
    apply Forall_forall. intros o Hin. apply in_map. exact Hin.
  - exists (set_order_status "completed"
              (stored_order (new_order (d_orderId d) userId body (d_totalAmount d)))).
    split; [|simpl; auto].
    rewrite Ho, map_app. apply in_or_app. right. simpl.
    rewrite String.eqb_refl. now left.
Qed.

(** ** Capacity *)

Lemma NoDup_map_eq {A B} (f : A -> B) (l : list A) x y :
  NoDup (map f l) -> In x l -> In y l -> f x = f y -> x = y.
Proof.
  induction l as [|a l IH]; simpl; intros Hnd Hx Hy Hf; [destruct Hx|].
  inversion Hnd as [|b l' Hnotin Hnd']; subst.
  destruct Hx as [->|Hx], Hy as [->|Hy]; auto.
  - exfalso. apply Hnotin. rewrite Hf. now apply in_map.
  - exfalso. apply Hnotin. rewrite <- Hf. now apply in_map.
Qed.

Lemma filter_repeat_id id x n :
  filter (String.eqb id) (repeat x n) = if String.eqb id x then repeat x n else [].
Proof.
  induction n as [|n IH]; simpl.
  - now destruct (String.eqb id x).
  - rewrite IH. now destruct (String.eqb id x).
Qed.

Lemma issued_none id lines :
  ~ In id (map ticketTypeId lines) ->
  filter (String.eqb id) (issued_type_ids lines) = [].
Proof.
  unfold issued_type_ids. induction lines as [|o rest IH]; simpl; intros Hnotin;
    [reflexivity|].
  rewrite filter_app, filter_repeat_id, IH by tauto.
  destruct (String.eqb id (ticketTypeId o)) eqn:Heq; [|reflexivity].
  apply String.eqb_eq in Heq. exfalso. apply Hnotin. now left.
Qed.

(** With distinct line items, at most one of them issues tickets of a
    given type. *)
Lemma issued_bound id lines bound :
  NoDup (map ticketTypeId lines) ->
  (forall o, In o lines -> ticketTypeId o = id ->
     (Z.to_nat (quantity o) <= bound)%nat) ->
  (length (filter (String.eqb id) (issued_type_ids lines)) <= bound)%nat.
Proof.
  induction lines as [|o rest IH]; simpl; intros Hnd Hb; [lia|].
  inversion Hnd as [|x l Hnotin Hnd']; subst.
  unfold issued_type_ids in *. simpl.
  rewrite filter_app, length_app, filter_repeat_id.
  destruct (String.eqb id (ticketTypeId o)) eqn:Heq.
  - apply String.eqb_eq in Heq. subst id.
    fold (issued_type_ids rest). rewrite (issued_none _ _ Hnotin).
    simpl. rewrite repeat_length, Nat.add_0_r. apply Hb; auto.
  - simpl. apply IH; [exact Hnd'|]. intros o' Hin. apply Hb. now right.
Qed.

Lemma count_valid_tickets id (ts : list (Ticket num)) :
  Forall (fun t => t_status t = "valid") ts ->
  length (filter (counts_as_sold id) ts) =
  length (filter (String.eqb id) (map (@t_ticket_type_id num) ts)).
Proof.
  intros Hall. induction Hall as [|t l Ht _ IH]; simpl; [reflexivity|].
  unfold counts_as_sold at 1. rewrite Ht. simpl. rewrite andb_true_r.
  destruct (String.eqb id (t_ticket_type_id t)); simpl; now rewrite IH.
Qed.

(** An accepted line asks for no more than what is left of its type. *)
Lemma accepted_line_fits env db body (d : Draft num) ln :
  primary_keys db ->
  accepted env db body d ->
  In ln (ticketOrders body) ->
  exists tt, In tt (ticket_types db) /\ tt_id tt = ticketTypeId ln /\
    quantity ln <= tt_quantity tt - Z.of_nat (count_sold db (tt_id tt)).
Proof.
  intros Hpk (_ & Hrows & _ & Hval & _) Hin.
  apply validate_orders_Ok in Hval. rewrite Forall_forall in Hval.
  destruct (Hval ln Hin) as (row & Hrow).
  apply validate_order_Ok in Hrow. destruct Hrow as (Hfind & _ & _ & _ & _ & Hq).
  apply find_ticket_type_Some in Hfind. destruct Hfind as (Hinr & Hid).
  rewrite Hrows in Hinr. apply ticketTypesQuery_In in Hinr.
  destruct Hinr as (Hint & Hsold & _).
  exists (row_type row). rewrite <- Hsold. auto.
Qed.

Lemma purchase_keeps_capacity env db userId body :
  primary_keys db -> within_capacity db ->
  primary_keys (snd (purchase env db userId body)) /\
  within_capacity (snd (purchase env db userId body)).
Proof.
  intros Hpk Hcap.
  destruct (purchase env db userId body) as [response db'] eqn:E. simpl.
  destruct response as [ov tks|e].
  2: { apply purchase_error_unchanged in E. subst db'. auto. }
  apply purchase_created in E.
  destruct E as (d & Hacc & _ & _ & Htt & Htk & _ & _).
  split; [unfold primary_keys; rewrite Htt; exact Hpk|].
  intros tt Hin. rewrite Htt in Hin. specialize (Hcap tt Hin).
  unfold count_sold in *. rewrite Htk, filter_app, length_app.
  pose proof Hacc as (_ & Hrows & Hlen & _ & _ & Hall & Hids & _).
  apply created_rows in Hall. destruct Hall as (Hall & _).
  assert (Hnew : length (filter (counts_as_sold (tt_id tt)) (map fst (d_createdTickets d)))
                 = length (filter (String.eqb (tt_id tt))
                             (issued_type_ids (ticketOrders body)))).
  { rewrite count_valid_tickets.
    - rewrite map_map. do 2 f_equal. exact Hids.
    - eapply Forall_impl; [|exact Hall]. intros t Ht. apply Ht. }
  rewrite Hnew.
  assert (Hb : (length (filter (String.eqb (tt_id tt))
                         (issued_type_ids (ticketOrders body)))
                <= Z.to_nat (tt_quantity tt -
                     Z.of_nat (length (filter (counts_as_sold (tt_id tt)) (tickets db)))))%nat).
  { apply issued_bound.
    - rewrite Hrows in Hlen. eapply resolved_all_distinct; eassumption.
    - intros o Ho Hid.
      destruct (accepted_line_fits _ _ _ _ _ Hpk Hacc Ho) as (tt' & Hin' & Hid' & Hq).
      assert (tt' = tt).
      { eapply NoDup_map_eq; [exact Hpk|exact Hin'|exact Hin|congruence]. }
      subst tt'. unfold count_sold in Hq. lia. }
  lia.
Qed.

(** C2: Starting from a store whose ticket types have distinct ids and
    hold no more tickets that are not cancelled than their capacity, every
    store reached by purchases served one after the other keeps, for every
    ticket type, the count of its tickets that are not cancelled at most
    its capacity; each purchase preserves this, because it is accepted
    only when every line asks for at most the capacity minus the count of
    tickets of its type that are not cancelled. *)
Theorem sold_never_exceeds_capacity db0 :
  primary_keys db0 -> within_capacity db0 ->
  (forall db, reachable db0 db -> within_capacity db) /\
  (forall db env userId body ov tks db',
     reachable db0 db ->
     purchase env db userId body = (Created ov tks, db') ->
     within_capacity db' /\
     forall ln, In ln (ticketOrders body) ->
       exists tt, In tt (ticket_types db) /\ tt_id tt = ticketTypeId ln /\
         quantity ln <= tt_quantity tt - Z.of_nat (count_sold db (tt_id tt))).
Proof.
  intros Hpk Hcap.
  assert (Hreach : forall db, reachable db0 db -> primary_keys db /\ within_capacity db).
  { intros db Hr. induction Hr as [|db env userId body Hr (IHpk & IHcap)]; [auto|].
    now apply purchase_keeps_capacity. }
  split; [intros db Hr; now apply Hreach|].
  intros db env userId body ov tks db' Hr E.
  destruct (Hreach db Hr) as (Hpk' & Hcap'). split.
  - pose proof (purchase_keeps_capacity env db userId body Hpk' Hcap') as (_ & Hk).
    rewrite E in Hk. exact Hk.
  - intros ln Hin. apply purchase_spec in E. destruct E as (d & Hacc & _).
    eapply accepted_line_fits; eassumption.
Qed.

(** ** The order of the checks *)

Lemma purchase_rejects_with env db userId body e :
  (forall k, fault env k = false) ->
  purchasable env db body -> all_resolved db body ->
  validate_orders env (resolved db body) (ticketOrders body) [] num_zero = Throw e ->
  purchase env db userId body = (BadRequest e, db).
Proof.
  intros Hnf (event & rest & Hev & Hstart) Hres Hval.
  unfold all_resolved, resolved in *.
  destruct (purchase env db userId body) as [response db'] eqn:E.
  apply purchase_spec in E. destruct response as [ov tks|e'].
  - destruct E as (d & (_ & Hrows & _ & Hval' & _) & _).
    rewrite Hrows, Hval in Hval'. discriminate.
  - destruct E as (-> & Hrej). f_equal. f_equal.
    destruct Hrej as [(k & _ & F) | [(_ & Hnone) | (event' & rest' & Hev' & Hrej)]].
    + rewrite Hnf in F. discriminate.
    + rewrite Hev in Hnone. discriminate.
    + rewrite Hev in Hev'. injection Hev' as <- <-.
      destruct Hrej as [(_ & Hs) | (_ & [(_ & Hlen) | (_ & Hval')])].
      * rewrite Hstart in Hs. discriminate.
      * exfalso. apply Hlen. rewrite Hres. symmetry. apply length_map.
      * rewrite Hval in Hval'. now injection Hval'.
Qed.

Lemma purchase_accepts env db userId body :
  (forall k, fault env k = false) ->
  purchasable env db body -> all_resolved db body ->
  Forall (admissible env (resolved db body)) (ticketOrders body) ->
  exists ov tks db', purchase env db userId body = (Created ov tks, db').
Proof.
  intros Hnf (event & rest & Hev & Hstart) Hres Hall.
  unfold all_resolved, resolved in *.
  destruct (validate_orders_admissible env _ _ [] num_zero Hall) as (out & Hval).
  destruct (purchase env db userId body) as [response db'] eqn:E.
  destruct response as [ov tks|e']; [eauto|]. exfalso.
  apply purchase_spec in E. destruct E as (_ & Hrej).
  destruct Hrej as [(k & _ & F) | [(_ & Hnone) | (event' & rest' & Hev' & Hrej)]].
  - rewrite Hnf in F. discriminate.
  - rewrite Hev in Hnone. discriminate.
  - rewrite Hev in Hev'. injection Hev' as <- <-.
    destruct Hrej as [(_ & Hs) | (_ & [(_ & Hlen) | (_ & Hval')])].
    + rewrite Hstart in Hs. discriminate.
    + apply Hlen. rewrite Hres. symmetry. apply length_map.
    + rewrite Hval in Hval'. discriminate.
Qed.

(** When all ids resolve, the row [find] returns for a line is the ticket
    type of the store with that id, with its current sold count. *)
Lemma resolved_row db body tt ln :
  primary_keys db -> all_resolved db body ->
  In tt (ticket_types db) -> In ln (ticketOrders body) ->
  tt_id tt = ticketTypeId ln ->
  find_ticket_type (resolved db body) (ticketTypeId ln) =
    Some {| row_type := tt; sold_count := count_sold db (tt_id tt) |}.
Proof.
  intros Hpk Hres Hin Hln Hid. unfold all_resolved, resolved in *.
  set (ids := map ticketTypeId (ticketOrders body)) in *.
  assert (Hlen : length (ticketTypesQuery ids (eventId body) db) = length ids).
  { rewrite Hres. unfold ids. symmetry. apply length_map. }
  assert (Hincl : incl ids (map (fun row : TicketTypeRow num => tt_id row)
                              (ticketTypesQuery ids (eventId body) db))).
  { apply NoDup_length_incl.
    - now apply resolved_ids_NoDup.
    - rewrite length_map. lia.
    - apply resolved_ids_incl. }
  assert (Hmem : In (ticketTypeId ln) ids) by (unfold ids; now apply in_map).
  apply Hincl in Hmem. apply in_map_iff in Hmem. destruct Hmem as (row0 & Hid0 & Hin0).
  destruct (find_ticket_type (ticketTypesQuery ids (eventId body) db) (ticketTypeId ln))
    as [row|] eqn:Hfind.
  - apply find_ticket_type_Some in Hfind. destruct Hfind as (Hinr & Hidr).
    apply ticketTypesQuery_In in Hinr. destruct Hinr as (Hint & Hsold & _).
    assert (row_type row = tt).
    { eapply NoDup_map_eq; [exact Hpk|exact Hint|exact Hin|congruence]. }
    destruct row as [rt sc]. simpl in *. subst rt. now rewrite Hsold.
  - unfold find_ticket_type in Hfind.
    eapply find_none in Hfind; [|exact Hin0]. simpl in Hfind.
    rewrite Hid0, String.eqb_refl in Hfind. discriminate.
Qed.

(** C8 (amended): For a ticket type whose sale end is set and in the
    past, every purchase attempt naming that type is rejected and leaves
    the store as it was, whatever inventory remains and whatever quantity
    is asked; the rejection is 'Sales ... have ended' whenever no earlier
    check fails: the store answers, the event is purchasable, every
    requested id resolves, the line items before it pass all their checks,
    the type is active, and its sale start is not in the future. No
    condition on the inventory is involved: the sale-window check comes
    before the limit and inventory checks. *)
Theorem ended_sale_is_rejected env db userId body tt ln ended :
  primary_keys db ->
  In tt (ticket_types db) ->
  In ln (ticketOrders body) ->
  tt_id tt = ticketTypeId ln ->
  tt_sale_end_date tt = Some ended -> ended < now env ->
  (exists e, purchase env db userId body = (BadRequest e, db)) /\
  (forall pre post,
     ticketOrders body = pre ++ ln :: post ->
     (forall k, fault env k = false) ->
     purchasable env db body -> all_resolved db body ->
     Forall (admissible env (resolved db body)) pre ->
     tt_is_active tt = true ->
     set_and_after (tt_sale_start_date tt) (now env) = false ->
     purchase env db userId body = (BadRequest (SalesEnded (tt_name tt)), db)).
Proof.
  intros Hpk Hin Hln Hid Hend Hpast.
  assert (Hbefore : set_and_before (tt_sale_end_date tt) (now env) = true).
  { rewrite Hend. simpl. now apply Z.ltb_lt. }
  split.
  - destruct (purchase env db userId body) as [response db'] eqn:E.
    destruct response as [ov tks|e].
    + exfalso. apply purchase_spec in E.
      destruct E as (d & (_ & Hrows & _ & Hval & _) & _).
      apply validate_orders_Ok in Hval. rewrite Forall_forall in Hval.
      destruct (Hval ln Hln) as (row & Hrow).
      apply validate_order_Ok in Hrow. destruct Hrow as (Hfind & _ & _ & He & _).
      apply find_ticket_type_Some in Hfind. destruct Hfind as (Hinr & Hidr).
      rewrite Hrows in Hinr. apply ticketTypesQuery_In in Hinr.
      destruct Hinr as (Hint & _).
      assert (row_type row = tt).
      { eapply NoDup_map_eq; [exact Hpk|exact Hint|exact Hin|congruence]. }
      subst tt. rewrite Hbefore in He. discriminate.
    + apply purchase_error_unchanged in E as ->. eauto.
  - intros pre post Hlines Hnf Hev Hres Hpre Hact Hstart.
    apply purchase_rejects_with; auto.
    rewrite Hlines. apply validate_orders_first_failure; [exact Hpre|].
    unfold validate_order.
    rewrite (resolved_row db body tt ln Hpk Hres Hin Hln Hid). simpl.
    rewrite Hact, Hstart, Hbefore. reflexivity.
Qed.

(** C9 (amended): For a line item that reaches the per-order limit check
    (the store answers, the event is purchasable, every requested id
    resolves, the line items before it pass all their checks, the type is
    active and inside its sale window), the check fails exactly when the
    requested quantity exceeds [max_per_order]: a larger quantity, such
    as the maximum plus one, is rejected with 'Maximum ... tickets allowed
    per order'; a quantity up to the maximum passes the check, and the
    purchase is accepted when the quantity also fits the remaining
    inventory and the later line items pass their checks. *)
Theorem per_order_limit_boundary env db userId body tt ln pre post :
  primary_keys db ->
  In tt (ticket_types db) ->
  tt_id tt = ticketTypeId ln ->
  ticketOrders body = pre ++ ln :: post ->
  (forall k, fault env k = false) ->
  purchasable env db body -> all_resolved db body ->
  Forall (admissible env (resolved db body)) pre ->
  tt_is_active tt = true ->
  set_and_after (tt_sale_start_date tt) (now env) = false ->
  set_and_before (tt_sale_end_date tt) (now env) = false ->
  (validate_order env (resolved db body) ln =
     Throw (MaximumPerOrder (tt_max_per_order tt) (tt_name tt))
   <-> quantity ln > tt_max_per_order tt) /\
  (quantity ln > tt_max_per_order tt ->
   purchase env db userId body =
     (BadRequest (MaximumPerOrder (tt_max_per_order tt) (tt_name tt)), db)) /\
  (quantity ln <= tt_max_per_order tt ->
   quantity ln <= tt_quantity tt - Z.of_nat (count_sold db (tt_id tt)) ->
   Forall (admissible env (resolved db body)) post ->
   exists ov tks db', purchase env db userId body = (Created ov tks, db')).
Proof.
  intros Hpk Hin Hid Hlines Hnf Hev Hres Hpre Hact Hstart Hend.
  assert (Hln : In ln (ticketOrders body)).
  { rewrite Hlines. apply in_or_app. right. now left. }
  assert (Hcheck : validate_order env (resolved db body) ln =
            if quantity ln >? tt_max_per_order tt then
              Throw (MaximumPerOrder (tt_max_per_order tt) (tt_name tt))
            else if quantity ln >? tt_quantity tt - Z.of_nat (count_sold db (tt_id tt))
            then Throw (OnlyAvailable
                          (tt_quantity tt - Z.of_nat (count_sold db (tt_id tt)))
                          (tt_name tt))
            else Ok {| row_type := tt; sold_count := count_sold db (tt_id tt) |}).
  { unfold validate_order.
    rewrite (resolved_row db body tt ln Hpk Hres Hin Hln Hid). simpl.
    rewrite Hact, Hstart, Hend. reflexivity. }
  split; [|split].
  - rewrite Hcheck. destruct (quantity ln >? tt_max_per_order tt) eqn:Hm.
    + split; [intros _|reflexivity]. rewrite Z.gtb_ltb in Hm.
      apply Z.ltb_lt in Hm. lia.
    + rewrite Z.gtb_ltb in Hm. apply Z.ltb_ge in Hm.
      split; [|lia].
      destruct (quantity ln >? _); discriminate.
  - intros Hgt. apply purchase_rejects_with; auto.
    rewrite Hlines. apply validate_orders_first_failure; [exact Hpre|].
    rewrite Hcheck.
    assert (Hm : (quantity ln >? tt_max_per_order tt) = true).
    { rewrite Z.gtb_ltb. apply Z.ltb_lt. lia. }
    now rewrite Hm.
  - intros Hle Hfit Hpost. apply purchase_accepts; auto.
    rewrite Hlines. apply Forall_app. split; [exact Hpre|].
    constructor; [|exact Hpost].
    eexists. rewrite Hcheck.
    assert (Hm : (quantity ln >? tt_max_per_order tt) = false).
    { rewrite Z.gtb_ltb. apply Z.ltb_ge. lia. }
    assert (Hv : (quantity ln >? tt_quantity tt - Z.of_nat (count_sold db (tt_id tt)))
                 = false).
    { rewrite Z.gtb_ltb. apply Z.ltb_ge. lia. }
    rewrite Hm, Hv. reflexivity.
Qed.

(** ** The format of ticket codes *)

Lemma chars_of_append (s1 s2 : string) :
  list_ascii_of_string (s1 ++ s2)%string =
  list_ascii_of_string s1 ++ list_ascii_of_string s2.
Proof. induction s1 as [|c s1 IH]; simpl; [reflexivity|now rewrite IH]. Qed.

Lemma length_chars (str : string) :
  String.length str = length (list_ascii_of_string str).
Proof. induction str as [|c str IH]; simpl; [reflexivity|now rewrite IH]. Qed.

Lemma get_some_In (str : string) : forall i c,
  String.get i str = Some c -> In c (list_ascii_of_string str).
Proof.
  induction str as [|a str IH]; intros i c Hget; simpl in *; [discriminate|].
  destruct i as [|i]; [injection Hget as ->; now left|].
  right. eapply IH; exact Hget.
Qed.

Lemma get_in_range (str : string) : forall i,
  (i < String.length str)%nat -> exists c, String.get i str = Some c.
Proof.
  induction str as [|a str IH]; intros i Hi; simpl in *; [lia|].
  destruct i as [|i]; [eauto|]. apply IH. lia.
Qed.

(** [charAt] inside the string is one character of it; outside, it is empty. *)
Lemma charAt_in_range (str : string) i :
  (i < String.length str)%nat ->
  exists c, charAt str i = String c EmptyString /\ In c (list_ascii_of_string str).
Proof.
  intros Hi. destruct (get_in_range str i Hi) as (c & Hget).
  exists c. unfold charAt. rewrite Hget. split; [reflexivity|].
  eapply get_some_In; exact Hget.
Qed.

Lemma code_of_draws_chars : forall draws result,
  Forall (fun i => (i < 36)%nat) draws ->
  let code := fold_left (fun r i => (r ++ charAt chars i)%string) draws result in
  String.length code = (String.length result + length draws)%nat /\
  forall c, In c (list_ascii_of_string code) ->
    In c (list_ascii_of_string result) \/ In c (list_ascii_of_string chars).
Proof.
  intros draws. induction draws as [|i draws IH]; intros result Hall; simpl.
  - split; [lia|auto].
  - inversion Hall as [|x l Hi Hrest]; subst.
    destruct (charAt_in_range chars i Hi) as (c0 & Hc0 & Hin0).
    destruct (IH (result ++ charAt chars i)%string Hrest) as (Hlen & Hmem).
    split.
    + rewrite Hlen, !length_chars, chars_of_append, length_app, Hc0. simpl. lia.
    + intros c Hc. apply Hmem in Hc. destruct Hc as [Hc|Hc]; [|now right].
      rewrite chars_of_append, Hc0 in Hc. apply in_app_or in Hc.
      destruct Hc as [Hc|[<-|[]]]; auto.
Qed.

Lemma draws_in_range env k n :
  (forall j, (random_index env j < 36)%nat) ->
  Forall (fun i => (i < 36)%nat) (draws_from env k n).
Proof.
  intros Hr. unfold draws_from. apply Forall_forall. intros i Hin.
  apply in_map_iff in Hin. destruct Hin as (j & <- & _). apply Hr.
Qed.

Lemma code_of_draws_format env k :
  (forall j, (random_index env j < 36)%nat) ->
  code_format (code_of_draws (draws_from env k 10)).
Proof.
  intros Hr. unfold code_format, code_of_draws.
  destruct (code_of_draws_chars (draws_from env k 10) "" (draws_in_range env k 10 Hr))
    as (Hlen & Hmem).
  split.
  - rewrite Hlen. unfold draws_from. rewrite length_map, length_seq. reflexivity.
  - intros c Hc. apply Hmem in Hc. destruct Hc as [[]|Hc]. exact Hc.
Qed.

Lemma codes_from_format env n : forall k,
  (forall j, (random_index env j < 36)%nat) ->
  Forall code_format (codes_from env k n).
Proof.
  induction n as [|n IH]; intros k Hr; simpl; constructor.
  - now apply code_of_draws_format.
  - now apply IH.
Qed.

(** C7 (amended): Every ticket of an accepted purchase carries a code
    generated for it alone by one call of the generator, ten random draws
    that no other ticket reuses, and when the draws are indices into the
    alphabet the code is a 10-character string over A-Z0-9; the codes
    returned are the codes stored. The handler neither compares a code
    with the codes already stored nor generates a second one: a purchase
    is accepted only if the store rejected none of its statements, so a
    uniqueness conflict raised by an INSERT ends the purchase with an
    error instead of a retry. *)
Theorem ticket_codes_are_generated_once env db userId body ov tks db' :
  (forall j, (random_index env j < 36)%nat) ->
  purchase env db userId body = (Created ov tks, db') ->
  exists new,
    tickets db' = tickets db ++ new /\
    map (@t_code num) new = codes_from env 0 (length new) /\
    Forall (fun t => code_format (t_code t)) new /\
    map (@tv_code num) tks = map (@t_code num) new /\
    (forall k, (k <= 5 + length new)%nat -> fault env k = false).
Proof.
  intros Hr E. apply purchase_created in E.
  destruct E as (d & Hacc & Hresp & _ & _ & Htk & _ & Fc).
  exists (map fst (d_createdTickets d)). split; [exact Htk|].
  destruct Hacc as (_ & _ & _ & _ & _ & _ & _ & Hcodes & Hnf).
  rewrite length_map, map_map.
  split; [exact Hcodes|]. split; [|split].
  - apply Forall_map.
    pose proof (codes_from_format env (length (d_createdTickets d)) 0%nat Hr) as Hf.
    rewrite <- Hcodes in Hf. rewrite Forall_map in Hf. exact Hf.
  - unfold created_response in Hresp. injection Hresp as _ ->.
    rewrite map_map. reflexivity.
  - intros k Hk. rewrite ?length_map in Hk.
    destruct (Nat.eq_dec k (5 + length (d_createdTickets d))) as [->|Hne].
    + exact Fc.
    + apply Hnf. apply Nat.le_lteq in Hk. destruct Hk as [Hk|Hk]; [exact Hk|].
      exfalso. apply Hne. exact Hk.
Qed.

(** ** Requests in flight together *)

Lemma purchase_unfold env db userId body :
  purchase env db userId body =
  match purchase_statements env userId body (getClient db) with
  | (Ok d, s) =>
      match query_commit env s with
      | (Ok _, s') => (created_response d, committed s')
      | (Throw e, s') => (BadRequest e, committed (rollback s'))
      end
  | (Throw e, s) => (BadRequest e, committed (rollback s))
  end.
Proof.
  unfold purchase, purchase_on, purchase_try, bind, ret.
  destruct (purchase_statements env userId body (getClient db)) as [[d|e] s];
    [|reflexivity].
  destruct (query_commit env s) as [[u|e] s']; reflexivity.
Qed.

(** A request that arrives and commits with nothing in between is the
    route served alone. *)
Lemma alone_is_purchase env db userId body :
  let sv := server_run (serve db) [Arrive env userId body; Resume 0] in
  shared sv = snd (purchase env db userId body) /\
  responses sv = [fst (purchase env db userId body)] /\
  in_flight sv = [].
Proof.
  rewrite purchase_unfold. unfold server_run, serve. simpl.
  destruct (purchase_statements env userId body (getClient db)) as [[d|e] s] eqn:E.
  - pose proof (purchase_statements_spec _ _ _ _ _ _ E) as (Hc & _).
    simpl. unfold commit_in_flight, bind, ret. simpl.
    assert (Hs : with_committed db s = s).
    { destruct s; simpl in *. now subst. }
    rewrite Hs.
    destruct (query_commit env s) as [[u|e] s']; simpl; auto.
  - simpl. auto.
Qed.

End Properties.

(** * The properties on the sample store *)

Lemma sample_primary_keys : primary_keys sample_db.
Proof.
  unfold primary_keys. simpl.
  repeat constructor; simpl; intuition discriminate.
Qed.

Lemma sample_within_capacity : within_capacity sample_db.
Proof.
  intros tt [<-|[<-|[<-|[]]]]; vm_compute; discriminate.
Qed.

Lemma sample_purchasable lines : purchasable sample_env sample_db (request lines).
Proof. exists sample_event, []. split; reflexivity. Qed.

Lemma sample_draws_in_range j : (random_index sample_env j < 36)%nat.
Proof. change (j mod 36 < 36)%nat. apply Nat.mod_upper_bound. lia. Qed.

(** What the route answers to a request for two VIP tickets. *)
Definition two_vip : Response Z * Store Z :=
  Eval vm_compute in purchase sample_env sample_db "u1" (request [line "t2" 2]).

Lemma two_vip_served :
  purchase sample_env sample_db "u1" (request [line "t2" 2]) = two_vip.
Proof. vm_compute. reflexivity. Qed.

(** C1 (what the code does): with one seat left, two requests for one
    ticket each that both run their availability query before either
    commits are both answered 201, and the store ends with two tickets
    that are not cancelled against a capacity of one; served one after the
    other, the second is told that 0 tickets are available. *)
Theorem concurrent_purchases_oversell :
  let one := request [line "t1" 1] in
  let sv := server_run (serve sample_db)
              [Arrive sample_env "u1" one; Arrive other_env "u2" one;
               Resume 0; Resume 0] in
  tt_quantity general = 1 /\
  (exists o1 k1 o2 k2, responses sv = [Created o1 [k1]; Created o2 [k2]]) /\
  count_sold (shared sv) "t1" = 2%nat /\
  fst (purchase other_env (snd (purchase sample_env sample_db "u1" one)) "u2" one)
    = BadRequest (OnlyAvailable 0 "General").
Proof.
  vm_compute. split; [reflexivity|]. split; [|split; reflexivity].
  do 4 eexists. reflexivity.
Qed.

Lemma sold_never_exceeds_capacity_witness :
  within_capacity
    (snd (purchase other_env
            (snd (purchase sample_env sample_db "u1" (request [line "t1" 1])))
            "u2" (request [line "t2" 2]))).
Proof.
  apply (proj1 (sold_never_exceeds_capacity sample_db
                  sample_primary_keys sample_within_capacity)).
  apply reachable_purchase. apply reachable_purchase. apply reachable_start.
Defined.

Lemma issued_tickets_store_no_price_witness :
  exists new,
    tickets (snd two_vip) = tickets sample_db ++ new /\
    length new = 2%nat /\
    Forall (fun t => t_purchase_price t = None) new.
Proof.
  destruct (issued_tickets_store_no_price sample_env sample_db "u1"
              (request [line "t2" 2])
              {| ov_id := "a-0"; ov_totalAmount := 10000; ov_status := "completed";
                 ov_ticketCount := 2 |}
              [{| tv_id := "a-1"; tv_code := "ABCDEFGHIJ";
                  tv_ticketType := {| ttv_name := "VIP"; ttv_price := 5000 |} |};
               {| tv_id := "a-2"; tv_code := "KLMNOPQRST";
                  tv_ticketType := {| ttv_name := "VIP"; ttv_price := 5000 |} |}]
              (snd two_vip))
    as (new & Htk & Hlen & Hprice & _).
  - vm_compute. reflexivity.
  - exists new. auto.
Defined.

Lemma issued_tickets_have_status_valid_witness :
  exists new,
    tickets (snd two_vip) = tickets sample_db ++ new /\
    length new = 2%nat /\
    Forall (fun t => t_status t = "valid" /\ t_status t <> "active" /\
                     ~ In (t_status t) ticket_statuses) new.
Proof.
  apply (issued_tickets_have_status_valid sample_env sample_db "u1"
           (request [line "t2" 2])
           {| ov_id := "a-0"; ov_totalAmount := 10000; ov_status := "completed";
              ov_ticketCount := 2 |}
           [{| tv_id := "a-1"; tv_code := "ABCDEFGHIJ";
               tv_ticketType := {| ttv_name := "VIP"; ttv_price := 5000 |} |};
            {| tv_id := "a-2"; tv_code := "KLMNOPQRST";
               tv_ticketType := {| ttv_name := "VIP"; ttv_price := 5000 |} |}]
           (snd two_vip)).
  vm_compute. reflexivity.
Defined.

Lemma order_total_is_sum_of_lines_witness :
  (10000 : Z) = sum_of_lines sample_db (request [line "t2" 2]) /\
  exists o, In o (orders (snd two_vip)) /\ o_id o = "a-0" /\
            o_total_amount o = 10000 /\ o_user_id o = "u1" /\
            o_status o = "completed".
Proof.
  assert (Hserved :
    purchase sample_env sample_db "u1" (request [line "t2" 2]) =
    (Created {| ov_id := "a-0"; ov_totalAmount := 10000; ov_status := "completed";
                ov_ticketCount := 2 |}
       [{| tv_id := "a-1"; tv_code := "ABCDEFGHIJ";
           tv_ticketType := {| ttv_name := "VIP"; ttv_price := 5000 |} |};
        {| tv_id := "a-2"; tv_code := "KLMNOPQRST";
           tv_ticketType := {| ttv_name := "VIP"; ttv_price := 5000 |} |}],
     snd two_vip)).
  { vm_compute. reflexivity. }
  exact (order_total_is_sum_of_lines _ _ _ _ _ _ _ Hserved).
Defined.

Lemma ticket_codes_are_generated_once_witness :
  exists new,
    tickets (snd two_vip) = tickets sample_db ++ new /\
    map (@t_code Z) new = codes_from sample_env 0 (length new) /\
    Forall (fun t => code_format (t_code t)) new /\
    ["ABCDEFGHIJ"; "KLMNOPQRST"] = map (@t_code Z) new /\
    (forall k, (k <= 5 + length new)%nat -> fault sample_env k = false).
Proof.
  apply (ticket_codes_are_generated_once sample_env sample_db "u1"
           (request [line "t2" 2])
           {| ov_id := "a-0"; ov_totalAmount := 10000; ov_status := "completed";
              ov_ticketCount := 2 |}
           [{| tv_id := "a-1"; tv_code := "ABCDEFGHIJ";
               tv_ticketType := {| ttv_name := "VIP"; ttv_price := 5000 |} |};
            {| tv_id := "a-2"; tv_code := "KLMNOPQRST";
               tv_ticketType := {| ttv_name := "VIP"; ttv_price := 5000 |} |}]
           (snd two_vip)).
  - exact sample_draws_in_range.
  - vm_compute. reflexivity.
Defined.

(** C7 (counterexample): when the random draws repeat, the two tickets of
    one purchase are stored with the same code, and when the store rejects
    the second INSERT for that reason the handler does not generate
    another code: the purchase fails and nothing is stored. *)
Lemma generated_codes_can_collide :
  (exists t1 t2,
     tickets (snd (purchase repeating_env sample_db "u1" (request [line "t2" 2])))
       = [t1; t2] /\
     t_id t1 <> t_id t2 /\ t_code t1 = t_code t2) /\
  purchase conflict_env sample_db "u1" (request [line "t2" 2])
    = (BadRequest (StoreFailure 5), sample_db).
Proof.
  split; [|vm_compute; reflexivity].
  vm_compute. do 2 eexists. split; [reflexivity|]. split; [discriminate|reflexivity].
Qed.

Lemma ended_sale_is_rejected_witness :
  purchase sample_env sample_db "u1" (request [line "t3" 1])
    = (BadRequest (SalesEnded "Early"), sample_db).
Proof.
  apply (proj2 (ended_sale_is_rejected sample_env sample_db "u1"
                  (request [line "t3" 1]) early (line "t3" 1) 400
                  sample_primary_keys
                  (or_intror (or_intror (or_introl eq_refl)))
                  (or_introl eq_refl) eq_refl eq_refl eq_refl))
    with (pre := []) (post := []).
  - reflexivity.
  - reflexivity.
  - apply sample_purchasable.
  - reflexivity.
  - constructor.
  - reflexivity.
  - reflexivity.
Defined.

(** C8 (counterexample): a request names the "Early" type, whose sale
    ended, after a line that asks for three "VIP" tickets where two are
    allowed; the type is active and the event purchasable, and the answer
    is the limit error of the first line, not 'Sales ... have ended'. *)
Lemma ended_sale_behind_a_failing_line :
  let body := request [line "t2" 3; line "t3" 1] in
  In early (ticket_types sample_db) /\
  In (line "t3" 1) (ticketOrders body) /\
  tt_sale_end_date early = Some 400 /\ 400 < now sample_env /\
  tt_is_active early = true /\
  purchasable sample_env sample_db body /\
  purchase sample_env sample_db "u1" body
    = (BadRequest (MaximumPerOrder 2 "VIP"), sample_db) /\
  fst (purchase sample_env sample_db "u1" body) <> BadRequest (SalesEnded "Early").
Proof.
  simpl. repeat split; try reflexivity; try (vm_compute; discriminate).
  - right. right. now left.
  - right. now left.
  - apply sample_purchasable.
Qed.

Lemma per_order_limit_boundary_witness :
  purchase sample_env sample_db "u1" (request [line "t2" 3])
    = (BadRequest (MaximumPerOrder 2 "VIP"), sample_db) /\
  exists ov tks db',
    purchase sample_env sample_db "u1" (request [line "t2" 2]) = (Created ov tks, db').
Proof.
  split.
  - apply (per_order_limit_boundary sample_env sample_db "u1"
             (request [line "t2" 3]) vip (line "t2" 3) [] []
             sample_primary_keys (or_intror (or_introl eq_refl)) eq_refl eq_refl
             (fun _ => eq_refl) (sample_purchasable _) eq_refl
             (Forall_nil _) eq_refl eq_refl eq_refl).
    reflexivity.
  - apply (per_order_limit_boundary sample_env sample_db "u1"
             (request [line "t2" 2]) vip (line "t2" 2) [] []
             sample_primary_keys (or_intror (or_introl eq_refl)) eq_refl eq_refl
             (fun _ => eq_refl) (sample_purchasable _) eq_refl
             (Forall_nil _) eq_refl eq_refl eq_refl).
    + vm_compute. discriminate.
    + vm_compute. discriminate.
    + constructor.
Defined.

(** C9 (counterexample): six "Early" tickets are one more than the five
    allowed per order, but the sale of that type has ended, and the answer
    is 'Sales ... have ended', not the limit error. *)
Lemma over_the_limit_after_sale_end :
  quantity (line "t3" 6) = tt_max_per_order early + 1 /\
  purchase sample_env sample_db "u1" (request [line "t3" 6])
    = (BadRequest (SalesEnded "Early"), sample_db) /\
  fst (purchase sample_env sample_db "u1" (request [line "t3" 6]))
    <> BadRequest (MaximumPerOrder 5 "Early").
Proof.
  split; [reflexivity|]. split; [vm_compute; reflexivity|vm_compute; discriminate].
Qed.

Lemma duplicate_line_items_rejected_witness :
  purchase sample_env sample_db "u1" (request [line "t2" 1; line "t2" 1])
    = (BadRequest TicketTypesNotFound, sample_db).
Proof.
  apply (proj2 (duplicate_line_items_rejected sample_env sample_db "u1"
                  (request [line "t2" 1; line "t2" 1]) sample_primary_keys
                  (fun Hnd : NoDup ["t2"; "t2"] =>
                     match Hnd in NoDup l return l = ["t2"; "t2"] -> False with
                     | NoDup_nil _ => fun E => eq_ind [] (fun l => match l with [] => True | _ => False end) I _ E
                     | NoDup_cons x Hnotin _ =>
                         fun E => Hnotin (eq_ind_r (fun l => In x l)
                                            (eq_ind_r (fun y => In y ["t2"])
                                               (or_introl eq_refl)
                                               (f_equal (hd "") E))
                                            (f_equal (@tl string) E))
                     end eq_refl))).
  - intros k. reflexivity.
  - apply sample_purchasable.
Defined.

(** * Further properties of the purchase route *)

Section PurchaseRoute.

Context {num : Type} `{Number num}.

Implicit Types (env : Env) (db : Store num) (body : PurchaseBody).

Lemma validate_orders_Throw env (rows : list (TicketTypeRow num)) e :
  forall lines ticketQuantities totalAmount,
  validate_orders env rows lines ticketQuantities totalAmount = Throw e ->
  exists pre ln post,
    lines = pre ++ ln :: post /\
    Forall (admissible env rows) pre /\
    validate_order env rows ln = Throw e.
Proof.
  intros lines. induction lines as [|o rest IH]; intros q t E; simpl in E;
    [discriminate|].
  destruct (validate_order env rows o) as [row|e0] eqn:Ev.
  - apply IH in E. destruct E as (pre & ln & post & -> & Hpre & Hln).
    exists (o :: pre), ln, post. split; [reflexivity|]. split; [|exact Hln].
    constructor; [exists row; exact Ev|exact Hpre].
  - injection E as ->. exists [], o, rest. repeat split; auto.
Qed.


(** Every ticket of an accepted purchase belongs to the order the
    response names and carries the contact details of the request; the
    ids and codes returned are those stored, in the same order. *)
Theorem tickets_belong_to_the_order env db userId body ov tks db' :
  purchase env db userId body = (Created ov tks, db') ->
  exists new,
    tickets db' = tickets db ++ new /\
    map (@tv_id num) tks = map (@t_id num) new /\
    map (@tv_code num) tks = map (@t_code num) new /\
    Forall (fun t => t_order_id t = ov_id ov /\
                     t_customer_first_name t = firstName (customerInfo body) /\
                     t_customer_last_name t = lastName (customerInfo body) /\
                     t_customer_email t = email (customerInfo body) /\
                     t_customer_phone t = or_null (phone (customerInfo body))) new.
Proof.
  intros E. apply purchase_created in E.
  destruct E as (d & Hacc & Hresp & _ & _ & Htk & _ & _).
  exists (map fst (d_createdTickets d)). split; [exact Htk|].
  destruct Hacc as (_ & _ & _ & _ & _ & Hall & _).
  unfold created_response in Hresp. injection Hresp as -> ->. simpl.
  rewrite !map_map. split; [reflexivity|]. split; [reflexivity|].
  apply Forall_map. eapply Forall_impl; [|exact Hall].
  intros c (ln & _ & row & ticketId & ticketCode & _ & ->). simpl. auto.
Qed.

(** Whatever it answers, a purchase never changes the events or the
    ticket types, never removes or alters a ticket that was there, and
    leaves every order alone whose id is not the id drawn for the new
    order. *)
Theorem purchase_only_appends env db userId body :
  let db' := snd (purchase env db userId body) in
  events db' = events db /\
  ticket_types db' = ticket_types db /\
  (exists new, tickets db' = tickets db ++ new) /\
  (forall o, In o (orders db) -> o_id o <> uuidv4 env 0 -> In o (orders db')).
Proof.
  destruct (purchase env db userId body) as [response db'] eqn:E. simpl.
  destruct response as [ov tks|e].
  - apply purchase_created in E.
    destruct E as (d & Hacc & _ & Hev & Htt & Htk & Ho & _).
    split; [exact Hev|]. split; [exact Htt|]. split; [eauto|].
    intros o Hin Hid. rewrite Ho. apply in_map_iff. exists o.
    destruct Hacc as (_ & _ & _ & _ & Hoid & _). rewrite Hoid.
    split; [|apply in_or_app; now left].
    destruct (String.eqb (o_id o) (uuidv4 env 0)) eqn:Heq; [|reflexivity].
    apply String.eqb_eq in Heq. contradiction.
  - apply purchase_error_unchanged in E as ->.
    repeat split; auto. exists []. now rewrite app_nil_r.
Qed.

(** When a purchase is refused for lack of inventory, the count in the
    message is exactly what is left of that ticket type (its capacity
    minus its tickets that are not cancelled), some line asks for more than
    that, and the store is unchanged. *)
Theorem remaining_count_is_exact env db userId body n name db' :
  purchase env db userId body = (BadRequest (OnlyAvailable n name), db') ->
  db' = db /\
  exists tt ln,
    In tt (ticket_types db) /\ In ln (ticketOrders body) /\
    tt_id tt = ticketTypeId ln /\ tt_name tt = name /\
    n = tt_quantity tt - Z.of_nat (count_sold db (tt_id tt)) /\
    quantity ln > n.
Proof.
  intros E. apply purchase_spec in E. destruct E as (-> & Hrej).
  split; [reflexivity|].
  destruct Hrej as [(k & Hk & _) | [(Hk & _) | (event & rest & _ & Hrej)]];
    try discriminate.
  destruct Hrej as [(Hk & _) | (_ & [(Hk & _) | (_ & Hval)])]; try discriminate.
  apply validate_orders_Throw in Hval.
  destruct Hval as (pre & ln & post & Hlines & _ & Hln).
  unfold validate_order in Hln.
  destruct (find_ticket_type _ (ticketTypeId ln)) as [row|] eqn:Hfind; [|discriminate].
  destruct (negb (tt_is_active row)); [discriminate|].
  destruct (set_and_after _ _); [discriminate|].
  destruct (set_and_before _ _); [discriminate|].
  destruct (quantity ln >? tt_max_per_order row); [discriminate|].
  destruct (quantity ln >? tt_quantity row - Z.of_nat (sold_count row)) eqn:Hq;
    [|discriminate].
  injection Hln as <- <-.
  apply find_ticket_type_Some in Hfind. destruct Hfind as (Hin & Hid).
  apply ticketTypesQuery_In in Hin. destruct Hin as (Hin & Hsold & _).
  exists (row_type row), ln. rewrite <- Hsold.
  rewrite Z.gtb_ltb in Hq. apply Z.ltb_lt in Hq.
  repeat split; auto; try lia.
  rewrite Hlines. apply in_or_app. right. now left.
Qed.

(** The event gate: when the store answers, a request for an event that
    has no published, not deleted row is refused as not available, and a
    request for an event whose start is not after the current time, the
    very instant of the start included, is refused as already started,
    whatever its line items; the store is unchanged. *)
Theorem event_gate env db userId body :
  (forall k, fault env k = false) ->
  ((forall event, In event (events db) -> ev_id event = eventId body ->
      ev_deleted_at event <> None \/ ev_status event <> "published") ->
   purchase env db userId body = (BadRequest EventNotAvailable, db)) /\
  (forall event rest,
     eventQuery (eventId body) db = event :: rest ->
     ev_start_date event <= now env ->
     purchase env db userId body = (BadRequest EventAlreadyStarted, db)).
Proof.
  intros Hnf.
  assert (Hcase : forall e,
            rejection env db body e ->
            (eventQuery (eventId body) db = [] -> e = EventNotAvailable) /\
            (forall event rest, eventQuery (eventId body) db = event :: rest ->
               ev_start_date event <= now env -> e = EventAlreadyStarted)).
  { intros e [(k & _ & F) | [(-> & Hnone) | (event & rest & Hev & Hrej)]].
    - rewrite Hnf in F. discriminate.
    - split; [reflexivity|]. intros ev r Hev. rewrite Hev in Hnone. discriminate.
    - split; [intros Hnone; rewrite Hev in Hnone; discriminate|].
      intros ev r Hev' Hle. rewrite Hev in Hev'. injection Hev' as <- <-.
      destruct Hrej as [(-> & _) | (Hs & _)]; [reflexivity|].
      apply Z.leb_gt in Hs. lia. }
  assert (Hnot : forall ov tks db',
            purchase env db userId body = (Created ov tks, db') ->
            exists event rest, eventQuery (eventId body) db = event :: rest /\
                               ev_start_date event > now env).
  { intros ov tks db' E. apply purchase_spec in E.
    destruct E as (d & ((event & rest & Hev & Hs) & _) & _).
    exists event, rest. split; [exact Hev|]. apply Z.leb_gt in Hs. lia. }
  split.
  - intros Hnone.
    assert (Hq : eventQuery (eventId body) db = []).
    { unfold eventQuery.
      destruct (filter _ (events db)) as [|event rest] eqn:Hf; [reflexivity|].
      assert (Hin : In event (filter
                (fun e => String.eqb (ev_id e) (eventId body)
                          && is_null (ev_deleted_at e)
                          && String.eqb (ev_status e) "published") (events db))).
      { rewrite Hf. now left. }
      apply filter_In in Hin. destruct Hin as (Hin & Hp).
      apply andb_true_iff in Hp. destruct Hp as (Hp & Hst).
      apply andb_true_iff in Hp. destruct Hp as (Hid & Hdel).
      apply String.eqb_eq in Hid. apply String.eqb_eq in Hst.
      destruct (Hnone event Hin Hid) as [Hd|Hs]; [|contradiction].
      destruct (ev_deleted_at event); [discriminate|]. now contradiction Hd. }
    destruct (purchase env db userId body) as [[ov tks|e] db'] eqn:E.
    + destruct (Hnot _ _ _ eq_refl) as (event & rest & Hev & _).
      rewrite Hq in Hev. discriminate.
    + apply purchase_spec in E. destruct E as (-> & Hrej).
      apply Hcase in Hrej. destruct Hrej as (Hrej & _). now rewrite Hrej.
  - intros event rest Hev Hle.
    destruct (purchase env db userId body) as [[ov tks|e] db'] eqn:E.
    + destruct (Hnot _ _ _ eq_refl) as (event' & rest' & Hev' & Hgt).
      rewrite Hev in Hev'. injection Hev' as <- <-. lia.
    + apply purchase_spec in E. destruct E as (-> & Hrej).
      apply Hcase in Hrej. destruct Hrej as (_ & Hrej).
      now rewrite (Hrej _ _ Hev Hle).
Qed.

End PurchaseRoute.

(** C6 (counterexample): three tickets at 1.10 on a store whose order
    total is a [DECIMAL(10, 2)] column: the caller is told a total above
    3.30 (the binary64 sum 3.3000000000000003), the order row holds 3.30,
    and the two differ. *)
Lemma stored_total_is_rounded :
  match purchase sample_env decimal_db "u1" (request [line "t4" 3]) with
  | (Created ov _, db') =>
      exists o,
        orders db' = [o] /\ o_id o = ov_id ov /\
        o_total_amount o <> ov_totalAmount ov /\
        PrimFloat.eqb (o_total_amount o)
          (PrimFloat.div (float_of_Z 330) (float_of_Z 100)) = true /\
        PrimFloat.ltb (PrimFloat.div (float_of_Z 330) (float_of_Z 100))
          (ov_totalAmount ov) = true
  | (BadRequest _, _) => False
  end.
Proof.
  vm_compute. eexists. split; [reflexivity|]. split; [reflexivity|].
  split; [|split; reflexivity].
  intros E.
  match type of E with ?x = ?y =>
    assert (Hsame : PrimFloat.eqb x y = true)
      by (rewrite <- E; vm_compute; reflexivity)
  end.
  vm_compute in Hsame. discriminate.
Qed.

(** ** The further properties on the sample store *)


Lemma tickets_belong_to_the_order_witness :
  exists new,
    tickets (snd two_vip) = tickets sample_db ++ new /\
    ["a-1"; "a-2"] = map (@t_id Z) new /\
    ["ABCDEFGHIJ"; "KLMNOPQRST"] = map (@t_code Z) new /\
    Forall (fun t => t_order_id t = "a-0" /\
                     t_customer_first_name t = "Ada" /\
                     t_customer_last_name t = "Lovelace" /\
                     t_customer_email t = "ada@example.org" /\
                     t_customer_phone t = None) new.
Proof.
  assert (Hserved :
    purchase sample_env sample_db "u1" (request [line "t2" 2]) =
    (Created {| ov_id := "a-0"; ov_totalAmount := 10000; ov_status := "completed";
                ov_ticketCount := 2 |}
       [{| tv_id := "a-1"; tv_code := "ABCDEFGHIJ";
           tv_ticketType := {| ttv_name := "VIP"; ttv_price := 5000 |} |};
        {| tv_id := "a-2"; tv_code := "KLMNOPQRST";
           tv_ticketType := {| ttv_name := "VIP"; ttv_price := 5000 |} |}],
     snd two_vip)).
  { vm_compute. reflexivity. }
  exact (tickets_belong_to_the_order _ _ _ _ _ _ _ Hserved).
Defined.

Lemma remaining_count_is_exact_witness :
  sample_db = sample_db /\
  exists tt ln,
    In tt (ticket_types sample_db) /\
    In ln (ticketOrders (request [line "t1" 2])) /\
    tt_id tt = ticketTypeId ln /\ tt_name tt = "General" /\
    1 = tt_quantity tt - Z.of_nat (count_sold sample_db (tt_id tt)) /\
    quantity ln > 1.
Proof.
  apply (remaining_count_is_exact sample_env sample_db "u1" (request [line "t1" 2])).
  vm_compute. reflexivity.
Defined.

Lemma event_gate_witness :
  purchase sample_env sample_db "u1"
    {| eventId := "e2"; ticketOrders := [line "t1" 1]; customerInfo := buyer |}
    = (BadRequest EventNotAvailable, sample_db) /\
  purchase {| now := 1000; uuidv4 := uuidv4 sample_env;
              random_index := random_index sample_env; fault := fun _ => false |}
    sample_db "u1" (request [line "t1" 1])
    = (BadRequest EventAlreadyStarted, sample_db).
Proof.
  split.
  - apply (proj1 (event_gate sample_env sample_db "u1"
                    {| eventId := "e2"; ticketOrders := [line "t1" 1];
                       customerInfo := buyer |} (fun _ => eq_refl))).
    intros event [<-|[]] Hid. discriminate Hid.
  - apply (proj2 (event_gate
                    {| now := 1000; uuidv4 := uuidv4 sample_env;
                       random_index := random_index sample_env;
                       fault := fun _ => false |}
                    sample_db "u1" (request [line "t1" 1]) (fun _ => eq_refl))
             sample_event []).
    + reflexivity.
    + simpl. lia.
Defined.

(** * [calculateOrderTotal] against the handler's running total *)


Section ExactAmounts.

Implicit Types (env : Env) (db : Store Z) (body : PurchaseBody).

Lemma fold_left_add_zsum {A} (f : A -> Z) (l : list A) : forall start,
  fold_left (fun total x => total + f x) l start = start + zsum (map f l).
Proof.
  induction l as [|x l IH]; intros start; simpl; [lia|].
  rewrite IH. lia.
Qed.

Lemma zsum_Permutation (l l' : list Z) : Permutation l l' -> zsum l = zsum l'.
Proof.
  intros Hp. induction Hp; simpl; lia.
Qed.

(** Reading back what was written to the quantities object. *)
Lemma get_set_quantity_same id q (m : Quantities) :
  get_quantity id (set_quantity id q m) = Some q.
Proof.
  induction m as [|[k v] m IH]; simpl.
  - now rewrite String.eqb_refl.
  - destruct (String.eqb k id) eqn:Heq; simpl; rewrite Heq; [reflexivity|exact IH].
Qed.

Lemma get_set_quantity_other id id' q (m : Quantities) :
  id' <> id -> get_quantity id' (set_quantity id q m) = get_quantity id' m.
Proof.
  intros Hne. induction m as [|[k v] m IH]; simpl.
  - destruct (String.eqb id id') eqn:Heq; [|reflexivity].
    apply String.eqb_eq in Heq. congruence.
  - destruct (String.eqb k id) eqn:Heq; simpl.
    + apply String.eqb_eq in Heq. subst k.
      destruct (String.eqb id id') eqn:Heq'; [|reflexivity].
      apply String.eqb_eq in Heq'. congruence.
    + destruct (String.eqb k id'); [reflexivity|exact IH].
Qed.

Lemma validate_orders_quantities env (rows : list (TicketTypeRow Z)) :
  forall lines q t q' t',
  NoDup (map ticketTypeId lines) ->
  validate_orders env rows lines q t = Ok (q', t') ->
  (forall ln, In ln lines -> get_quantity (ticketTypeId ln) q' = Some (quantity ln)) /\
  (forall id, ~ In id (map ticketTypeId lines) -> get_quantity id q' = get_quantity id q) /\
  t' = t + zsum (map (fun ln => price_of rows (ticketTypeId ln) * quantity ln) lines).
Proof.
  intros lines. induction lines as [|o rest IH]; intros q t q' t' Hnd E; simpl in E.
  - injection E as <- <-. simpl. repeat split; auto; try lia; intros ln [].
  - destruct (validate_order env rows o) as [row|e] eqn:Ev; [|discriminate].
    apply validate_order_Ok in Ev. destruct Ev as (Hfind & _).
    pose proof (find_ticket_type_Some _ _ _ Hfind) as (_ & Hid).
    inversion Hnd as [|x l Hnotin Hnd']; subst.
    apply IH in E; [|exact Hnd']. destruct E as (Hin & Hout & Htot).
    split; [|split].
    + intros ln [<-|Hln]; [|now apply Hin].
      rewrite (Hout _ Hnotin), Hid. apply get_set_quantity_same.
    + intros id Hid'. simpl in Hid'.
      rewrite Hout by tauto. rewrite Hid. apply get_set_quantity_other.
      intros ->. tauto.
    + rewrite Htot. simpl. unfold price_of at 2. rewrite Hfind. lia.
Qed.

Lemma find_own_row (rows : list (TicketTypeRow Z)) row :
  NoDup (map (fun r : TicketTypeRow Z => tt_id r) rows) ->
  In row rows -> find_ticket_type rows (tt_id row) = Some row.
Proof.
  intros Hnd Hin.
  destruct (find_ticket_type rows (tt_id row)) as [r|] eqn:Hfind.
  - apply find_ticket_type_Some in Hfind. destruct Hfind as (Hr & Hid).
    f_equal. eapply NoDup_map_eq; [exact Hnd|exact Hr|exact Hin|exact Hid].
  - unfold find_ticket_type in Hfind. eapply find_none in Hfind; [|exact Hin].
    simpl in Hfind. rewrite String.eqb_refl in Hfind. discriminate.
Qed.

(** [calculateOrderTotal], called with the ticket types the availability
    query returned and the quantities object the validation loop filled,
    gives the total the loop accumulated: with amounts in exact cents and
    every requested id resolved, summing over the ticket types and
    summing over the line items agree. *)
Theorem calculateOrderTotal_is_the_running_total env db body ticketQuantities totalAmount :
  primary_keys db ->
  all_resolved db body ->
  validate_orders env (resolved db body) (ticketOrders body) [] 0
    = Ok (ticketQuantities, totalAmount) ->
  calculateOrderTotal (resolved db body) ticketQuantities = totalAmount.
Proof.
  intros Hpk Hres Hval. unfold all_resolved, resolved in *.
  set (ids := map ticketTypeId (ticketOrders body)) in *.
  set (rows := ticketTypesQuery ids (eventId body) db) in *.
  assert (Hlen : length rows = length ids).
  { rewrite Hres. unfold ids. symmetry. apply length_map. }
  assert (Hnd_ids : NoDup ids) by (eapply resolved_all_distinct; eassumption).
  assert (Hnd_rows : NoDup (map (fun r : TicketTypeRow Z => tt_id r) rows))
    by now apply resolved_ids_NoDup.
  apply validate_orders_quantities in Hval; [|exact Hnd_ids].
  destruct Hval as (Hq & _ & ->).
  unfold calculateOrderTotal. simpl.
  rewrite (fold_left_add_zsum
             (fun type : TicketTypeRow Z =>
                tt_price type * quantity_or_0 (tt_id type) ticketQuantities)).
  rewrite !Z.add_0_l.
  set (G := fun id => price_of rows id * quantity_or_0 id ticketQuantities).
  transitivity (zsum (map G (map (fun r : TicketTypeRow Z => tt_id r) rows))).
  { rewrite map_map. f_equal. apply map_ext_in. intros row Hin.
    unfold G, price_of. now rewrite (find_own_row rows row Hnd_rows Hin). }
  transitivity (zsum (map G ids)).
  { apply zsum_Permutation, Permutation_map, NoDup_Permutation; auto.
    intros id. split.
    - apply resolved_ids_incl.
    - apply NoDup_length_incl; [exact Hnd_rows| |apply resolved_ids_incl].
      rewrite length_map. fold rows. lia. }
  unfold ids. rewrite map_map. f_equal. apply map_ext_in. intros ln Hin.
  unfold G, quantity_or_0. now rewrite (Hq ln Hin).
Qed.

Lemma calculateOrderTotal_is_the_running_total_witness :
  calculateOrderTotal
    (resolved sample_db (request [line "t2" 2; line "t1" 1]))
    [("t2", 2); ("t1", 1)] = 12000.
Proof.
  apply (calculateOrderTotal_is_the_running_total sample_env sample_db
           (request [line "t2" 2; line "t1" 1]) [("t2", 2); ("t1", 1)] 12000
           sample_primary_keys).
  - reflexivity.
  - vm_compute. reflexivity.
Defined.

End ExactAmounts.
